(** * fictional-people: the sanitizers, the array extractor and the batch
      pipeline of [fictional-people.py], embedded in Rocq.

    Python [str] values are sequences of Unicode code points; they are
    modelled as lists of code points ([N]).  The character classes the
    program relies on through [str.strip], [re] and [int] are the ones
    of the Unicode character database shipped with CPython (whitespace
    and decimal digits, Unicode 14); the case tables behind [str.title]
    and the [json] codec are parameters.  Random draws are taken from an
    explicit entropy source that is threaded through the code. *)

From Stdlib Require Import String Ascii.
From Stdlib Require Import NArith ZArith QArith Bool Arith Lia List.
Import ListNotations.

Set Warnings "-register-all".

(* ------------------------------------------------------------------ *)
(** ** Python strings *)

Module PyStr.

Local Open Scope N_scope.

Definition char := N.
Definition pystr := list char.

(** An ASCII literal of the source, as a list of code points. *)
Fixpoint lit (s : string) : pystr :=
  match s with
  | EmptyString => []
  | String a s' => N_of_ascii a :: lit s'
  end.

Fixpoint str_eqb (a b : pystr) : bool :=
  match a, b with
  | [], [] => true
  | x :: a', y :: b' => N.eqb x y && str_eqb a' b'
  | _, _ => false
  end.

(** [str.isspace] on one character, which is also what [\s] matches in
    a [str] pattern: the table [_PyUnicode_IsWhitespace]. *)
Definition isspace (c : char) : bool :=
  ((0x09 <=? c) && (c <=? 0x0D)) || ((0x1C <=? c) && (c <=? 0x20))
  || (c =? 0x85) || (c =? 0xA0) || (c =? 0x1680)
  || ((0x2000 <=? c) && (c <=? 0x200A))
  || (c =? 0x2028) || (c =? 0x2029) || (c =? 0x202F) || (c =? 0x205F)
  || (c =? 0x3000).

(** The line boundaries of [str.splitlines]. *)
Definition is_newline (c : char) : bool :=
  ((0x0A <=? c) && (c <=? 0x0D)) || ((0x1C <=? c) && (c <=? 0x1E))
  || (c =? 0x85) || (c =? 0x2028) || (c =? 0x2029).

(** Runs of ten consecutive code points of category Nd, as
    (first code point, length); within a run the digit value of [c] is
    [(c - first) mod 10]. *)
Definition decimal_runs : list (N * N) :=
  [ (0x30,10); (0x660,10); (0x6F0,10); (0x7C0,10); (0x966,10); (0x9E6,10);
    (0xA66,10); (0xAE6,10); (0xB66,10); (0xBE6,10); (0xC66,10); (0xCE6,10);
    (0xD66,10); (0xDE6,10); (0xE50,10); (0xED0,10); (0xF20,10); (0x1040,10);
    (0x1090,10); (0x17E0,10); (0x1810,10); (0x1946,10); (0x19D0,10);
    (0x1A80,10); (0x1A90,10); (0x1B50,10); (0x1BB0,10); (0x1C40,10);
    (0x1C50,10); (0xA620,10); (0xA8D0,10); (0xA900,10); (0xA9D0,10);
    (0xA9F0,10); (0xAA50,10); (0xABF0,10); (0xFF10,10); (0x104A0,10);
    (0x10D30,10); (0x11066,10); (0x110F0,10); (0x11136,10); (0x111D0,10);
    (0x112F0,10); (0x11450,10); (0x114D0,10); (0x11650,10); (0x116C0,10);
    (0x11730,10); (0x118E0,10); (0x11950,10); (0x11C50,10); (0x11D50,10);
    (0x11DA0,10); (0x16A60,10); (0x16AC0,10); (0x16B50,10); (0x1D7CE,50);
    (0x1E140,10); (0x1E2F0,10); (0x1E950,10); (0x1FBF0,10) ].

Fixpoint decimal_in (runs : list (N * N)) (c : char) : option N :=
  match runs with
  | [] => None
  | (first, len) :: rest =>
      if (first <=? c) && (c <? first + len)
      then Some ((c - first) mod 10)
      else decimal_in rest c
  end.

(** [Py_UNICODE_TODECIMAL]: the digit value of a decimal digit. *)
Definition to_decimal (c : char) : option N := decimal_in decimal_runs c.

(** What [\d] matches in a [str] pattern. *)
Definition isdecimal (c : char) : bool :=
  match to_decimal c with Some _ => true | None => false end.

Definition is_ascii_digit (c : char) : bool := (0x30 <=? c) && (c <=? 0x39).

(** [s.lstrip()], [s.rstrip()], [s.strip()]. *)
Fixpoint lstrip (s : pystr) : pystr :=
  match s with
  | [] => []
  | c :: t => if isspace c then lstrip t else s
  end.

Definition rstrip (s : pystr) : pystr := rev (lstrip (rev s)).

Definition strip (s : pystr) : pystr := rstrip (lstrip s).

(** [s.endswith(suffix)]. *)
Definition endswith (s suffix : pystr) : bool :=
  (length suffix <=? length s)%nat
  && str_eqb (skipn (length s - length suffix) s) suffix.

(** [re.sub(r"\s+", " ", s)]: every maximal run of whitespace becomes
    one space; [in_run] tells that the previous character was
    whitespace. *)
Fixpoint sub_ws_from (in_run : bool) (s : pystr) : pystr :=
  match s with
  | [] => []
  | c :: t =>
      if isspace c
      then if in_run then sub_ws_from true t else 0x20 :: sub_ws_from true t
      else c :: sub_ws_from false t
  end.

Definition sub_ws (s : pystr) : pystr := sub_ws_from false s.

(** [re.sub(r"\D", "", s)]. *)
Definition sub_nondigits (s : pystr) : pystr := filter isdecimal s.

(** [x or ""] for an optional string. *)
Definition or_empty (x : option pystr) : pystr :=
  match x with Some s => s | None => [] end.

End PyStr.
Import PyStr.

Local Open Scope N_scope.

(* ------------------------------------------------------------------ *)
(** ** one_sentence *)

(** [while note.endswith(".."): note = note[:-1]]; each iteration
    shortens the note, so [length note] iterations are enough. *)
Fixpoint drop_periods_loop (fuel : nat) (note : pystr) : pystr :=
  match fuel with
  | O => note
  | S fuel' =>
      if endswith note (lit "..")
      then drop_periods_loop fuel' (removelast note)
      else note
  end.

Definition drop_periods (note : pystr) : pystr :=
  drop_periods_loop (length note) note.

Definition one_sentence (note : option pystr) : pystr :=
  let note := strip (or_empty note) in
  let note := sub_ws note in
  let note := if (length note <? 20)%nat then lit "Nothing notable." else note in
  let note := if negb (endswith note (lit ".")) then note ++ lit "." else note in
  let note := drop_periods note in
  firstn 60 note.

(* ------------------------------------------------------------------ *)
(** ** The random source *)

(** [random.randint(a, b)] draws from the generator's stream and returns
    an integer of [a..b]; the generator moves on by one draw. *)
Record rng := { entropy : nat -> N; drawn : nat }.

Definition randint (a b : Z) (g : rng) : Z * rng :=
  ((a + Z.of_N (entropy g (drawn g)) mod (b - a + 1))%Z,
   {| entropy := entropy g; drawn := S (drawn g) |}).

(* ------------------------------------------------------------------ *)
(** ** Integers and text: [int(s)], [str(n)], [format(n, "0wd")] *)

Module PyInt.

(** The default of [sys.get_int_max_str_digits()]. *)
Definition int_max_str_digits : nat := 4300.

(** [_PyUnicode_TransformDecimalAndSpaceToASCII]: a character at or
    above 127 becomes a space if it is whitespace, its ASCII digit if it
    is a decimal digit, and otherwise ends the text with a question
    mark. *)
Fixpoint transform_decimal_and_space (s : pystr) : pystr :=
  match s with
  | [] => []
  | c :: t =>
      if c <? 127 then c :: transform_decimal_and_space t
      else if isspace c then 0x20 :: transform_decimal_and_space t
      else match to_decimal c with
           | Some d => (0x30 + d) :: transform_decimal_and_space t
           | None => [0x3F]
           end
  end.

(** [Py_ISSPACE]: the whitespace of the C locale. *)
Definition c_isspace (c : char) : bool :=
  ((0x09 <=? c) && (c <=? 0x0D)) || (c =? 0x20).

Fixpoint skip_c_space (s : pystr) : pystr :=
  match s with
  | [] => []
  | c :: t => if c_isspace c then skip_c_space t else s
  end.

(** The digits of a base-10 literal, underscores allowed between two
    digits; returns the digit values (most significant first) and the
    text that follows.  [prev_us] tells that the previous character was
    an underscore. *)
Fixpoint scan_digits (prev_us : bool) (acc : list N) (s : pystr)
  : option (list N * pystr) :=
  match s with
  | [] => if prev_us then None else Some (rev acc, [])
  | c :: t =>
      if is_ascii_digit c then scan_digits false ((c - 0x30) :: acc) t
      else if c =? 0x5F then
        if prev_us then None else scan_digits true acc t
      else if prev_us then None else Some (rev acc, s)
  end.

Definition digits_value (ds : list N) : Z :=
  fold_left (fun v d => (10 * v + Z.of_N d)%Z) ds 0%Z.

(** [int(s)] for a [str]; [None] stands for [ValueError]. *)
Definition int (s : pystr) : option Z :=
  let a := skip_c_space (transform_decimal_and_space s) in
  let '(negative, a) :=
    match a with
    | 0x2B :: t => (false, t)
    | 0x2D :: t => (true, t)
    | _ => (false, a)
    end in
  match a with
  | 0x5F :: _ => None
  | _ =>
      match scan_digits false [] a with
      | None => None
      | Some (ds, rest) =>
          match ds, skip_c_space rest with
          | [], _ => None
          | _ :: _, [] =>
              if (int_max_str_digits <? length ds)%nat then None
              else Some (if negative then (- digits_value ds)%Z
                         else digits_value ds)
          | _ :: _, _ :: _ => None
          end
      end
  end.

(** The decimal digits of a natural number, most significant first. *)
Fixpoint dec_loop (fuel : nat) (n : N) (acc : pystr) : pystr :=
  match fuel with
  | O => acc
  | S fuel' =>
      let acc' := (0x30 + n mod 10) :: acc in
      if n / 10 =? 0 then acc' else dec_loop fuel' (n / 10) acc'
  end.

Definition str_of_N (n : N) : pystr :=
  dec_loop (S (N.to_nat (N.log2 n))) n [].

(** [str(z)], which is also [f"{z}"]. *)
Definition str (z : Z) : pystr :=
  if (z <? 0)%Z then 0x2D :: str_of_N (Z.abs_N z) else str_of_N (Z.abs_N z).

(** [format(z, "0wd")]: sign first, then zeros up to the width [w]. *)
Definition format_0d (w : nat) (z : Z) : pystr :=
  let digits := str_of_N (Z.abs_N z) in
  if (z <? 0)%Z
  then 0x2D :: repeat 0x30 (w - 1 - length digits) ++ digits
  else repeat 0x30 (w - length digits) ++ digits.

End PyInt.

(** [s.split(sep)] for a one-character separator; [cur] holds the
    current piece, reversed. *)
Fixpoint split_from (sep : char) (cur : pystr) (s : pystr) : list pystr :=
  match s with
  | [] => [rev cur]
  | c :: t =>
      if c =? sep then rev cur :: split_from sep [] t
      else split_from sep (c :: cur) t
  end.

Definition str_split (sep : char) (s : pystr) : list pystr := split_from sep [] s.

(* ------------------------------------------------------------------ *)
(** ** clamp_dob *)

(** [f"{y:04d}-{m:02d}-{day:02d}"]. *)
Definition render_dob (y m day : Z) : pystr :=
  PyInt.format_0d 4 y ++ lit "-" ++ PyInt.format_0d 2 m ++ lit "-"
  ++ PyInt.format_0d 2 day.

(** [y, m, day = map(int, d.split("-"))]; [None] when the statement
    raises: a piece is not an integer, or there are not exactly three. *)
Definition parse_ymd (d : pystr) : option (Z * Z * Z) :=
  match map PyInt.int (str_split 0x2D d) with
  | [Some y; Some m; Some day] => Some (y, m, day)
  | _ => None
  end.

(** The [except] branch: a random safe date. *)
Definition random_dob (g : rng) : pystr * rng :=
  let '(y, g) := randint 1920 2024 g in
  let '(m, g) := randint 1 12 g in
  let '(day, g) := randint 1 28 g in
  (render_dob y m day, g).

Definition clamp_dob (d : pystr) (g : rng) : pystr * rng :=
  match parse_ymd d with
  | None => random_dob g
  | Some (y, m, day) =>
      let y := Z.min (Z.max y 1920) 2024 in
      let m := Z.min (Z.max m 1) 12 in
      let day := Z.min (Z.max day 1) 28 in
      (render_dob y m day, g)
  end.

(* ------------------------------------------------------------------ *)
(** ** sanitize_zip *)

Definition sanitize_zip (z : option pystr) (g : rng) : pystr * rng :=
  let z := sub_nondigits (or_empty z) in
  if negb (length z =? 5)%nat
  then let '(r, g) := randint 10000 99999 g in (PyInt.str r, g)
  else (z, g).

(* ------------------------------------------------------------------ *)
(** ** Decoded JSON and exceptions *)

(** What [json.loads] returns.  A [dict] keeps its items in insertion
    order, each key once; a float is kept as the rational it denotes. *)
Inductive json : Type :=
| JNull
| JBool (b : bool)
| JInt (z : Z)
| JFloat (q : Q)
| JStr (s : pystr)
| JArr (items : list json)
| JObj (members : list (pystr * json)).

(** The exceptions that leave a batch. *)
Inductive error : Type :=
| GenerationFailure   (* the model call raised *)
| NoArrayFound        (* ValueError("No JSON array found in model output.") *)
| UnbalancedArray     (* ValueError("Unbalanced JSON array in model output.") *)
| DecodeFailure       (* json.loads raised on the candidate text *)
| AttributeError
| TypeError
| ReadFailure         (* reading the store raised what the except clause
                         does not catch *)
| WriteFailure.       (* open(outfile, "w") or json.dump raised *)

Inductive result (A : Type) : Type :=
| Ok (a : A)
| Raise (e : error).
Arguments Ok {A} a.
Arguments Raise {A} e.

(** The [json] module of the runtime.  [loads] gives [None] when the
    decoder raises; [uncaught] then tells that the exception is not a
    [json.JSONDecodeError] (the [ValueError] of the integer digit limit,
    a [RecursionError]).  [dumps] is the text that [json.dump] writes
    (ensure_ascii=False, indent=2) when it completes; [dump_fragment]
    gives the text written so far when [json.dump] raises on the way (a
    string that UTF-8 cannot encode, a nesting that is too deep). *)
Record json_codec := {
  loads : pystr -> option json;
  uncaught : pystr -> bool;
  dumps : json -> pystr;
  dump_fragment : json -> option pystr
}.

(** The case tables of the Unicode database, as [str.title] uses them:
    [lower_ucs4 data i c] lowers the character [c] found at index [i] of
    [data] (the final sigma depends on its neighbours). *)
Record case_tables := {
  is_cased : char -> bool;
  to_title_full : char -> pystr;
  lower_ucs4 : pystr -> nat -> char -> pystr
}.

(** The tables on the Basic Latin block; every other character is taken
    as caseless. *)
Definition basic_latin : case_tables := {|
  is_cased c := ((0x41 <=? c) && (c <=? 0x5A)) || ((0x61 <=? c) && (c <=? 0x7A));
  to_title_full c := if (0x61 <=? c) && (c <=? 0x7A) then [c - 0x20] else [c];
  lower_ucs4 _ _ c := if (0x41 <=? c) && (c <=? 0x5A) then [c + 0x20] else [c]
|}.

(* ------------------------------------------------------------------ *)
(** ** parse_json_strict *)

(** Does [\[\s*{] match at the head of [s]? *)
Definition match_here (s : pystr) : bool :=
  match s with
  | c :: t =>
      (c =? 0x5B) && match lstrip t with d :: _ => d =? 0x7B | [] => false end
  | [] => false
  end.

(** [re.search(r"\[\s*{", text, re.S)], returning [m.start()]; [i] is
    the index of the head of [s] in the text. *)
Fixpoint search_from (i : nat) (s : pystr) : option nat :=
  match s with
  | [] => None
  | _ :: t => if match_here s then Some i else search_from (S i) t
  end.

Definition search_array_open (text : pystr) : option nat := search_from 0 text.

(** [text[a:b]]. *)
Definition slice (text : pystr) (a b : nat) : pystr :=
  firstn (b - a) (skipn a text).

Section Extractor.

Variable J : json_codec.

(** The [for i, ch in enumerate(text[start:], start)] loop; [rest] is
    what is left of [text[start:]] and [i] the index of its head. *)
Fixpoint scan_brackets (text : pystr) (start i : nat) (rest : pystr) (depth : Z)
  : result json :=
  match rest with
  | [] => Raise UnbalancedArray
  | ch :: rest' =>
      if ch =? 0x5B then scan_brackets text start (S i) rest' (depth + 1)%Z
      else if ch =? 0x5D then
        let depth := (depth - 1)%Z in
        if (depth =? 0)%Z then
          let arr := slice text start (i + 1) in
          match loads J arr with
          | Some v => Ok v
          | None => Raise DecodeFailure
          end
        else scan_brackets text start (S i) rest' depth
      else scan_brackets text start (S i) rest' depth
  end.

Definition parse_json_strict (text : pystr) : result json :=
  match search_array_open text with
  | None => Raise NoArrayFound
  | Some start => scan_brackets text start start (skipn start text) 0%Z
  end.

End Extractor.

(* ------------------------------------------------------------------ *)
(** ** Names: [s.strip().title()[:12]] *)

Section Title.

Variable U : case_tables.

(** [str.title] ([do_title] of CPython): a character is title-cased
    unless the character before it is cased, in which case it is
    lowered. *)
Fixpoint do_title (data : pystr) (i : nat) (rest : pystr)
  (previous_is_cased : bool) : pystr :=
  match rest with
  | [] => []
  | c :: rest' =>
      (if previous_is_cased then lower_ucs4 U data i c else to_title_full U c)
      ++ do_title data (S i) rest' (is_cased U c)
  end.

Definition title (s : pystr) : pystr := do_title s 0 s false.

(** [s.strip().title()[:12]] *)
Definition clean_name (s : pystr) : pystr := firstn 12 (title (strip s)).

End Title.

(* ------------------------------------------------------------------ *)
(** ** The batch pipeline *)

(** What a batch can observe and change: the random generator; the files
    (a path holds a text or does not exist), with the paths whose
    opening or reading raises something other than [FileNotFoundError]
    (no permission, a directory, bytes that are not UTF-8) and those
    that cannot be opened for writing; the lines printed; and the hosted
    model: [replies w i count] is what the call number [i] of
    [call_model], for [count] people, ends in, a text or a raise, and
    [requests w] counts the calls made so far. *)
Record world := {
  gen : rng;
  files : pystr -> option pystr;
  unreadable : pystr -> bool;
  unwritable : pystr -> bool;
  stdout : list pystr;
  replies : nat -> Z -> option pystr;
  requests : nat
}.

(** The answer to the next request. *)
Definition model (w : world) (count : Z) : option pystr :=
  replies w (requests w) count.

Definition set_gen (g : rng) (w : world) : world :=
  {| gen := g; files := files w; unreadable := unreadable w;
     unwritable := unwritable w; stdout := stdout w; replies := replies w;
     requests := requests w |}.

Definition write_file (path text : pystr) (w : world) : world :=
  {| gen := gen w;
     files := fun p => if str_eqb p path then Some text else files w p;
     unreadable := unreadable w; unwritable := unwritable w;
     stdout := stdout w; replies := replies w; requests := requests w |}.

Definition print (line : pystr) (w : world) : world :=
  {| gen := gen w; files := files w; unreadable := unreadable w;
     unwritable := unwritable w; stdout := stdout w ++ [line];
     replies := replies w; requests := requests w |}.

Definition next_request (w : world) : world :=
  {| gen := gen w; files := files w; unreadable := unreadable w;
     unwritable := unwritable w; stdout := stdout w; replies := replies w;
     requests := S (requests w) |}.

(** Computations that read and change the world and may raise. *)
Definition M (A : Type) : Type := world -> result A * world.

Definition ret {A} (a : A) : M A := fun w => (Ok a, w).
Definition raise {A} (e : error) : M A := fun w => (Raise e, w).
Definition bind {A B} (c : M A) (k : A -> M B) : M B :=
  fun w => match c w with
           | (Ok a, w') => k a w'
           | (Raise e, w') => (Raise e, w')
           end.
Definition lift {A} (r : result A) : M A := fun w => (r, w).
Definition with_rng {A} (f : rng -> A * rng) : M A :=
  fun w => let '(a, g) := f (gen w) in (Ok a, set_gen g w).

Notation "x <- c ;; k" := (bind c (fun x => k))
  (at level 61, c at next level, right associativity).
Notation "c ;;; k" := (bind c (fun _ => k))
  (at level 61, right associativity).

(** Truth value of a decoded JSON value. *)
Definition truthy (v : json) : bool :=
  match v with
  | JNull => false
  | JBool b => b
  | JInt z => negb (z =? 0)%Z
  | JFloat q => negb (Qnum q =? 0)%Z
  | JStr s => match s with [] => false | _ => true end
  | JArr l => match l with [] => false | _ => true end
  | JObj m => match m with [] => false | _ => true end
  end.

(** [d.get(key)] on the items of a [dict]; [JNull] is [None]. *)
Fixpoint dict_get (members : list (pystr * json)) (key : pystr) : json :=
  match members with
  | [] => JNull
  | (k, v) :: rest => if str_eqb k key then v else dict_get rest key
  end.

(** [p.get(key) or ""]; only a [dict] has [get]. *)
Definition get_or_empty (p : json) (key : string) : result json :=
  match p with
  | JObj members =>
      let v := dict_get members (lit key) in
      Ok (if truthy v then v else JStr [])
  | _ => Raise AttributeError
  end.

(** [x or default] for strings. *)
Definition str_or (x default : pystr) : pystr :=
  match x with [] => default | _ => x end.

(** The values [for p in data] goes through. *)
Definition iterate (data : json) : result (list json) :=
  match data with
  | JArr items => Ok items
  | JObj members => Ok (map (fun kv => JStr (fst kv)) members)
  | JStr s => Ok (map (fun c => JStr [c]) s)
  | _ => Raise TypeError
  end.

Section Pipeline.

Variable U : case_tables.
Variable J : json_codec.

(** [call_model]: one request to the model; any exception of the
    request ends in a raise. *)
Definition call_model (count : Z) : M pystr :=
  fun w => match model w count with
           | Some text => (Ok text, next_request w)
           | None => (Raise GenerationFailure, next_request w)
           end.

(** The [try: ... json.load(f) ... except (FileNotFoundError,
    json.JSONDecodeError)] block: a missing file, a text that does not
    decode and a document that is not a list all give the empty list;
    any other exception of the read or of the decoder leaves the
    block. *)
Definition load_existing (outfile : pystr) (w : world) : result (list json) :=
  if unreadable w outfile then Raise ReadFailure
  else match files w outfile with
       | None => Ok []
       | Some text =>
           match loads J text with
           | Some (JArr existing) => Ok existing
           | Some _ => Ok []
           | None => if uncaught J text then Raise ReadFailure else Ok []
           end
       end.

(** [with open(outfile, "w") as f: json.dump(cleaned, f, ...)]: opening
    empties the file; when [json.dump] raises, the file keeps what was
    written until then. *)
Definition write_store (outfile : pystr) (data : json) : M unit :=
  fun w =>
    if unwritable w outfile then (Raise WriteFailure, w)
    else match dump_fragment J data with
         | Some fragment => (Raise WriteFailure, write_file outfile fragment w)
         | None => (Ok tt, write_file outfile (dumps J data) w)
         end.

(** The name expressions: [(p.get(k) or "").strip().title()[:12]]. *)
Definition name_field (p : json) (key : string) : M pystr :=
  v <- lift (get_or_empty p key) ;;
  match v with
  | JStr s => ret (clean_name U s)
  | _ => raise AttributeError
  end.

(** The body of [for p in data]; returns the record appended to
    [cleaned]. *)
Definition clean_person (p : json) : M json :=
  first <- name_field p "firstName" ;;
  last <- name_field p "lastName" ;;
  d <- lift (get_or_empty p "dateOfBirth") ;;
  dob <- with_rng (match d with
                   | JStr s => clamp_dob s
                   | _ => random_dob   (* d.split raises inside the try *)
                   end) ;;
  z <- lift (get_or_empty p "zipCode") ;;
  zipc <- match z with
          | JStr s => with_rng (sanitize_zip (Some s))
          | _ => raise TypeError      (* re.sub on a non-string *)
          end ;;
  n <- lift (get_or_empty p "notes") ;;
  notes <- match n with
           | JStr s => ret (one_sentence (Some s))
           | _ => raise AttributeError
           end ;;
  let key := (first, last, dob, zipc) in
  ret (JObj [ (lit "firstName", JStr (str_or first (lit "Alex")));
              (lit "lastName", JStr (str_or last (lit "Rivera")));
              (lit "dateOfBirth", JStr dob);
              (lit "zipCode", JStr zipc);
              (lit "notes", JStr notes) ]).

Fixpoint clean_loop (data : list json) (cleaned : list json) : M (list json) :=
  match data with
  | [] => ret cleaned
  | p :: rest =>
      r <- clean_person p ;;
      clean_loop rest (cleaned ++ [r])
  end.

Definition generate_people (count : Z) (outfile : pystr) : M unit :=
  raw <- call_model count ;;
  data <- lift (parse_json_strict J raw) ;;
  existing <- (fun w => (load_existing outfile w, w)) ;;
  items <- lift (iterate data) ;;
  cleaned <- clean_loop items [] ;;
  let cleaned := cleaned ++ existing in
  write_store outfile (JArr cleaned) ;;;
  (fun w => (Ok tt,
             print (lit "Wrote " ++ PyInt.str (Z.of_nat (length cleaned))
                    ++ lit " people to " ++ outfile) w)).

End Pipeline.

(* ------------------------------------------------------------------ *)
(** ** Notions used to state the properties *)

(** The previous contents of the store, as a batch that gets past the
    read has them in [existing]. *)
Definition previous_records (J : json_codec) (outfile : pystr) (w : world)
  : list json :=
  match load_existing J outfile w with
  | Ok existing => existing
  | Raise _ => []
  end.

(** The filler sentence of [one_sentence]. *)
Definition filler : pystr := lit "Nothing notable.".

(** The note of [one_sentence] just before [note[:60]]. *)
Definition before_truncation (note : option pystr) : pystr :=
  let note := strip (or_empty note) in
  let note := sub_ws note in
  let note := if (length note <? 20)%nat then lit "Nothing notable." else note in
  let note := if negb (endswith note (lit ".")) then note ++ lit "." else note in
  drop_periods note.

(** A note that a further pass of [one_sentence] leaves alone: it is
    the filler or has at least 20 characters, and it ends neither with a
    space nor with two periods. *)
Definition settled (r : pystr) : bool :=
  ((20 <=? length r)%nat || str_eqb r filler)
  && negb (endswith r (lit " ")) && negb (endswith r (lit "..")).

(** Every whitespace character of [s] is a single U+0020 that does not
    follow another whitespace character ([prev_ws]: the character before
    [s] is whitespace). *)
Fixpoint single_spaced (prev_ws : bool) (s : pystr) : bool :=
  match s with
  | [] => true
  | c :: t =>
      if isspace c then negb prev_ws && (c =? 0x20) && single_spaced true t
      else single_spaced false t
  end.

(** Five ASCII digits. *)
Definition is_zip5 (s : pystr) : bool :=
  (length s =? 5)%nat && forallb is_ascii_digit s.

(** The value of an ASCII digit. *)
Definition digit_val (c : char) : Z := Z.of_N c - 48.

(** The three numbers of a text of the shape DDDD-DD-DD (D an ASCII
    digit), and [None] for any other text. *)
Definition dob_fields (s : pystr) : option (Z * Z * Z) :=
  match s with
  | [y1; y2; y3; y4; s1; m1; m2; s2; d1; d2] =>
      if forallb is_ascii_digit [y1; y2; y3; y4; m1; m2; d1; d2]
         && (s1 =? 0x2D) && (s2 =? 0x2D)
      then Some ((1000 * digit_val y1 + 100 * digit_val y2
                  + 10 * digit_val y3 + digit_val y4)%Z,
                 (10 * digit_val m1 + digit_val m2)%Z,
                 (10 * digit_val d1 + digit_val d2)%Z)
      else None
  | _ => None
  end.

(** Zero-padded YYYY-MM-DD with the year in 1920..2024, the month in
    1..12 and the day in 1..28. *)
Definition dob_shape (s : pystr) : bool :=
  match dob_fields s with
  | Some (y, m, d) =>
      ((1920 <=? y) && (y <=? 2024) && (1 <=? m) && (m <=? 12)
       && (1 <=? d) && (d <=? 28))%Z
  | None => false
  end.

(** The value of [lo..hi] nearest to [v]. *)
Definition nearest (lo hi v : Z) : Z :=
  if (v <? lo)%Z then lo else if (hi <? v)%Z then hi else v.

(** Opening minus closing array brackets of a text. *)
Fixpoint depth_of (s : pystr) : Z :=
  match s with
  | [] => 0
  | c :: t =>
      ((if (c =? 0x5B)%N then 1 else if (c =? 0x5D)%N then -1 else 0)
       + depth_of t)%Z
  end.

(** The text has an array-open bracket followed, with only whitespace
    between, by an object-open brace. *)
Definition has_array_open (text : pystr) : Prop :=
  exists pre ws post,
    text = pre ++ 0x5B :: ws ++ 0x7B :: post /\ forallb isspace ws = true.

(** Two worlds that differ in the random generator at most. *)
Definition same_store (w w' : world) : Prop :=
  files w' = files w /\ stdout w' = stdout w
  /\ unreadable w' = unreadable w /\ unwritable w' = unwritable w
  /\ replies w' = replies w /\ requests w' = requests w.

(** A computation that changes the random generator at most. *)
Definition frames {A : Type} (c : M A) : Prop :=
  forall w r w', c w = (r, w') -> same_store w w'.

(** Five decimal digits of any script. *)
Definition is_decimal5 (s : pystr) : bool :=
  (length s =? 5)%nat && forallb isdecimal s.

Section TitleNotions.

Variable U : case_tables.

(** What [str.title] puts for the character at index [i] of [s]. *)
Definition title_piece (s : pystr) (i : nat) : pystr :=
  let c := nth i s 0 in
  match i with
  | O => to_title_full U c
  | S j => if is_cased U (nth j s 0) then lower_ucs4 U s i c
           else to_title_full U c
  end.

(** Title-casing by whitespace-separated words: the first letter of a
    word is capitalised and its other letters are lowered; [seen] tells
    that the current word already had a letter, [i] is the index of the
    head of [rest] in [data]. *)
Fixpoint words_title_from (data : pystr) (i : nat) (rest : pystr) (seen : bool)
  : pystr :=
  match rest with
  | [] => []
  | c :: rest' =>
      if isspace c then c :: words_title_from data (S i) rest' false
      else if is_cased U c then
        (if seen then lower_ucs4 U data i c else to_title_full U c)
        ++ words_title_from data (S i) rest' true
      else c :: words_title_from data (S i) rest' seen
  end.

Definition words_title (s : pystr) : pystr := words_title_from s 0 s false.

(** The cleaned name under the reading by whitespace-separated words. *)
Definition words_clean_name (s : pystr) : pystr :=
  firstn 12 (words_title (strip s)).

End TitleNotions.

(* ------------------------------------------------------------------ *)
(** ** Sample inputs *)

(** The letter a followed by 19 periods. *)
Definition periods_note : pystr := 0x61 :: repeat 0x2E 19.

(** 61 letters. *)
Definition long_note : pystr := repeat 0x61 61.

(** 58 letters, two periods and three more letters. *)
Definition cut_note : pystr := repeat 0x61 58 ++ lit "..xyz".

(** The ARABIC-INDIC DIGITs one to five. *)
Definition arabic_zip : pystr := [0x661; 0x662; 0x663; 0x664; 0x665].

(** A codec that knows one document, enough to run a batch in the
    examples; it writes an array as the number of its items. *)
Definition sample_codec : json_codec := {|
  loads s := if str_eqb s (lit "[{}]") then Some (JArr [JObj []]) else None;
  uncaught _ := false;
  dumps v := match v with
             | JArr items => PyInt.str (Z.of_nat (length items))
             | _ => []
             end;
  dump_fragment _ := None
|}.

(** A world without files whose model answers with one empty object. *)
Definition sample_world : world := {|
  gen := {| entropy := fun n => N.of_nat (37 * n + 11); drawn := 0 |};
  files := fun _ => None;
  unreadable := fun _ => false;
  unwritable := fun _ => false;
  stdout := [];
  replies := fun _ _ => Some (lit "Here you go: [{}] enjoy");
  requests := 0
|}.

(** A world whose model call raises. *)
Definition offline_world : world := {|
  gen := {| entropy := fun n => N.of_nat n; drawn := 0 |};
  files := fun _ => Some (lit "[{}]");
  unreadable := fun _ => false;
  unwritable := fun _ => false;
  stdout := [];
  replies := fun _ _ => None;
  requests := 0
|}.

(* ------------------------------------------------------------------ *)
(** ** The driver *)

Section Driver.

Variable U : case_tables.
Variable J : json_codec.

(** [while True: generate_people(count=10, outfile="people.json")],
    followed for [n] iterations; a batch that raises ends the loop. *)
Fixpoint main_loop (n : nat) : M unit :=
  match n with
  | O => ret tt
  | S n' => generate_people U J 10 (lit "people.json") ;;; main_loop n'
  end.

End Driver.

(* ------------------------------------------------------------------ *)
(** ** Further notions *)

(** How often a character occurs in a text. *)
Definition count_char (c : char) (s : pystr) : nat :=
  length (filter (N.eqb c) s).

(** Only ASCII characters. *)
Definition is_ascii (s : pystr) : bool := forallb (fun c => c <? 128) s.

(** A decoded value that is a string, or that [or ""] replaces by the
    empty string. *)
Definition text_or_falsy (v : json) : bool :=
  match v with
  | JStr _ => true
  | _ => negb (truthy v)
  end.

(** A decoded value that gives an empty name: missing, falsy, or a
    string of whitespace only. *)
Definition blank (v : json) : bool :=
  match v with
  | JStr s => forallb isspace s
  | _ => negb (truthy v)
  end.

Definition is_object (v : json) : bool :=
  match v with JObj _ => true | _ => false end.

Definition is_array (v : json) : bool :=
  match v with JArr _ => true | _ => false end.

(** The shape of a cleaned record: the five keys in the order of the
    source, names of 1 to 12 characters, a date of the fixed shape, five
    decimal digits, and a single-spaced note of 1 to 60 characters. *)
Definition cleaned_record_ok (r : json) : Prop :=
  exists first last dob zipc notes,
    r = JObj [ (lit "firstName", JStr first); (lit "lastName", JStr last);
               (lit "dateOfBirth", JStr dob); (lit "zipCode", JStr zipc);
               (lit "notes", JStr notes) ]
    /\ (1 <= length first <= 12)%nat /\ (1 <= length last <= 12)%nat
    /\ dob_shape dob = true /\ is_decimal5 zipc = true
    /\ (1 <= length notes <= 60)%nat /\ single_spaced false notes = true.

(** A text is free of newlines and its whitespace is the ASCII space. *)
Definition plain_spaces (s : pystr) : bool :=
  forallb (fun c => negb (is_newline c) && (negb (isspace c) || (c =? 0x20))) s.

(** [p.get(key) or ""] on the items of a [dict]. *)
Definition field (members : list (pystr * json)) (key : string) : json :=
  let v := dict_get members (lit key) in
  if truthy v then v else JStr [].

(** A codec that knows a few documents, for the examples. *)
Definition demo_codec : json_codec := {|
  loads s :=
    if str_eqb s (lit "[{}]") then Some (JArr [JObj []])
    else if str_eqb s (lit "[{}, 7]") then Some (JArr [JObj []; JInt 7])
    else if str_eqb s (lit "{}") then Some (JObj [])
    else None;
  uncaught _ := false;
  dumps v := match v with
             | JArr [_] => lit "one"
             | JArr [_; _] => lit "two"
             | _ => []
             end;
  dump_fragment _ := None
|}.

(** A world whose store holds an object and whose model answers with an
    array that has a number among its items. *)
Definition mixed_world : world := {|
  gen := {| entropy := fun n => N.of_nat (5 * n + 3); drawn := 0 |};
  files := fun p => if str_eqb p (lit "people.json") then Some (lit "{}")
                    else None;
  unreadable := fun _ => false;
  unwritable := fun _ => false;
  stdout := [];
  replies := fun _ _ => Some (lit "[{}, 7]");
  requests := 0
|}.

(** A world whose store does not decode and whose model answers with
    one empty object. *)
Definition stale_world : world := {|
  gen := {| entropy := fun n => N.of_nat (9 * n + 1); drawn := 0 |};
  files := fun p => if str_eqb p (lit "people.json")
                    then Some (lit "<<<<<<< not json") else None;
  unreadable := fun _ => false;
  unwritable := fun _ => false;
  stdout := [];
  replies := fun _ _ => Some (lit "[{}]");
  requests := 0
|}.

(** The line printed at the end of a batch. *)
Definition wrote_line (count : nat) (outfile : pystr) : pystr :=
  lit "Wrote " ++ PyInt.str (Z.of_nat count) ++ lit " people to " ++ outfile.

Section BatchRecords.

Variable U : case_tables.
Variable J : json_codec.

(** The records that a batch started in the world [w] cleans; empty
    when the batch raises before it has them. *)
Definition batch_records (count : Z) (w : world) : list json :=
  match model w count with
  | Some raw =>
      match parse_json_strict J raw with
      | Ok data =>
          match iterate data with
          | Ok items =>
              match fst (clean_loop U items [] (next_request w)) with
              | Ok cleaned => cleaned
              | Raise _ => []
              end
          | Raise _ => []
          end
      | Raise _ => []
      end
  | None => []
  end.

End BatchRecords.

(* ------------------------------------------------------------------ *)
(** ** A roster for the examples *)

(** An object with the five keys. *)
Definition person (first last dob zip notes : string) : json :=
  JObj [ (lit "firstName", JStr (lit first)); (lit "lastName", JStr (lit last));
         (lit "dateOfBirth", JStr (lit dob)); (lit "zipCode", JStr (lit zip));
         (lit "notes", JStr (lit notes)) ].

Definition ada : json :=
  person "ada" "lovelace" "1990-12-10" "02134" "Wrote the first program.".
Definition alan : json :=
  person "alan" "turing" "1954-06-07" "10001" "Breaks codes before breakfast.".
Definition grace : json :=
  person "grace" "hopper" "1992-01-01" "22202" "Found the first actual bug.".

(** The first record as the pipeline cleans it. *)
Definition ada_cleaned : json :=
  person "Ada" "Lovelace" "1990-12-10" "02134" "Wrote the first program.".

(** The names of a record, as one entry of the roster. *)
Definition roster_entry (r : json) : pystr :=
  match r with
  | JObj members =>
      match dict_get members (lit "firstName"),
            dict_get members (lit "lastName") with
      | JStr first, JStr last => first ++ lit " " ++ last ++ lit ";"
      | _, _ => lit "?;"
      end
  | _ => lit "?;"
  end.

(** A codec for the examples: it writes an array as the roster of its
    records, reads the roster of the first record back as that record,
    and knows two replies of the model. *)
Definition roster_codec : json_codec := {|
  loads s :=
    if str_eqb s (lit "[{ada}]") then Some (JArr [ada])
    else if str_eqb s (lit "[{alan}, {grace}]") then Some (JArr [alan; grace])
    else if str_eqb s (lit "Ada Lovelace;") then Some (JArr [ada_cleaned])
    else None;
  uncaught _ := false;
  dumps v := match v with
             | JArr items => concat (map roster_entry items)
             | _ => []
             end;
  dump_fragment _ := None
|}.

(** A world whose store holds one record and whose model answers with
    two people. *)
Definition roster_world : world := {|
  gen := {| entropy := fun n => N.of_nat (3 * n + 1); drawn := 0 |};
  files := fun p => if str_eqb p (lit "people.json")
                    then Some (lit "Ada Lovelace;") else None;
  unreadable := fun _ => false;
  unwritable := fun _ => false;
  stdout := [];
  replies := fun _ _ => Some (lit "Sure: [{alan}, {grace}]");
  requests := 0
|}.

(** A world without files whose model answers the first request with one
    person and the later ones with two. *)
Definition fresh_world : world := {|
  gen := {| entropy := fun n => N.of_nat (3 * n + 2); drawn := 0 |};
  files := fun _ => None;
  unreadable := fun _ => false;
  unwritable := fun _ => false;
  stdout := [];
  replies := fun i _ => match i with
                        | O => Some (lit "[{ada}]")
                        | S _ => Some (lit "[{alan}, {grace}]")
                        end;
  requests := 0
|}.

(** A world without files whose model answers two requests and raises
    on the third. *)
Definition flaky_world : world := {|
  gen := {| entropy := fun n => N.of_nat (7 * n + 4); drawn := 0 |};
  files := fun _ => None;
  unreadable := fun _ => false;
  unwritable := fun _ => false;
  stdout := [];
  replies := fun i _ => match i with
                        | O => Some (lit "[{ada}]")
                        | S O => Some (lit "[{alan}, {grace}]")
                        | S (S _) => None
                        end;
  requests := 0
|}.

(** Every step of a batch before the write went through: the model
    answered, an array was extracted and decoded, the store was read,
    and all items were cleaned. *)
Definition earlier_steps_succeeded (U : case_tables) (J : json_codec)
  (count : Z) (outfile : pystr) (w : world) : Prop :=
  exists raw data existing items cleaned w1,
    model w count = Some raw
    /\ parse_json_strict J raw = Ok data
    /\ load_existing J outfile w = Ok existing
    /\ iterate data = Ok items
    /\ clean_loop U items [] (next_request w) = (Ok cleaned, w1).

(* ------------------------------------------------------------------ *)
(** * Properties *)

(** ** Strings *)

(** The literals of the source, as code points. *)
Ltac lits :=
  change (lit " ") with [0x20] in *;
  change (lit ".") with [0x2E] in *;
  change (lit "..") with [0x2E; 0x2E] in *.

(** Linear arithmetic with division and remainder by constants. *)
Ltac divlia := zify; Z.to_euclidean_division_equations; lia.

Section StringFacts.

Lemma str_eqb_eq (a b : pystr) : str_eqb a b = true <-> a = b.
Proof.
  revert b; induction a as [|x a IH]; intros [|y b]; simpl;
    split; intros H; try discriminate; try reflexivity.
  - apply andb_true_iff in H as [Hx Hr].
    apply N.eqb_eq in Hx. apply IH in Hr. now subst.
  - injection H as -> ->. rewrite N.eqb_refl. now apply IH.
Qed.

Lemma str_eqb_refl (a : pystr) : str_eqb a a = true.
Proof. now apply str_eqb_eq. Qed.

Lemma str_eqb_neq (a b : pystr) : a <> b -> str_eqb a b = false.
Proof.
  intros H. destruct (str_eqb a b) eqn:E; [|reflexivity].
  apply str_eqb_eq in E. contradiction.
Qed.

Lemma snoc_cases (s : pystr) : s = [] \/ exists p c, s = p ++ [c].
Proof.
  induction s as [|c s _] using rev_ind; [now left|right; eauto].
Qed.

(** A suffix test on a text that ends with as many characters as the
    suffix has compares those characters. *)
Lemma endswith_app (p q suffix : pystr) :
  length q = length suffix -> endswith (p ++ q) suffix = str_eqb q suffix.
Proof.
  intros Hlen. unfold endswith. rewrite length_app, Hlen.
  replace (length suffix <=? length p + length suffix)%nat with true
    by (symmetry; apply Nat.leb_le; lia).
  replace (length p + length suffix - length suffix)%nat with (length p) by lia.
  rewrite skipn_app, skipn_all, Nat.sub_diag. reflexivity.
Qed.

Lemma endswith_short (s suffix : pystr) :
  (length s < length suffix)%nat -> endswith s suffix = false.
Proof.
  intros H. unfold endswith.
  replace (length suffix <=? length s)%nat with false; [reflexivity|].
  symmetry. apply Nat.leb_gt. exact H.
Qed.

Lemma endswith_inv (s suffix : pystr) :
  endswith s suffix = true -> exists p, s = p ++ suffix.
Proof.
  unfold endswith. intros H. apply andb_true_iff in H as [_ H].
  apply str_eqb_eq in H.
  exists (firstn (length s - length suffix) s).
  rewrite <- (firstn_skipn (length s - length suffix) s) at 1.
  now rewrite H.
Qed.

Lemma endswith_1 (p : pystr) (c d : char) :
  endswith (p ++ [c]) [d] = (c =? d).
Proof. rewrite endswith_app by reflexivity. simpl. now rewrite andb_true_r. Qed.

Lemma endswith_2 (p : pystr) (b c d e : char) :
  endswith (p ++ [b; c]) [d; e] = (b =? d) && (c =? e).
Proof. rewrite endswith_app by reflexivity. simpl. now rewrite andb_true_r. Qed.

Lemma removelast_snoc (p : pystr) (c : char) : removelast (p ++ [c]) = p.
Proof. apply removelast_last. Qed.

(** *** Trimming *)

Lemma lstrip_head (c : char) (t : pystr) :
  isspace c = false -> lstrip (c :: t) = c :: t.
Proof. intros H. simpl. now rewrite H. Qed.

Lemma lstrip_starts (s : pystr) :
  match lstrip s with [] => True | c :: _ => isspace c = false end.
Proof.
  induction s as [|c t IH]; simpl; [exact I|].
  destruct (isspace c) eqn:E; [exact IH|exact E].
Qed.

Lemma lstrip_length (s : pystr) : (length (lstrip s) <= length s)%nat.
Proof.
  induction s as [|c t IH]; simpl; [lia|].
  destruct (isspace c); simpl; lia.
Qed.

Lemma lstrip_split (s : pystr) :
  exists ws, s = ws ++ lstrip s /\ forallb isspace ws = true.
Proof.
  induction s as [|c t (ws & E & F)]; simpl.
  - now exists [].
  - destruct (isspace c) eqn:Ec.
    + exists (c :: ws). simpl. rewrite Ec, F. now rewrite <- E.
    + now exists [].
Qed.

Lemma rstrip_snoc_keep (p : pystr) (c : char) :
  isspace c = false -> rstrip (p ++ [c]) = p ++ [c].
Proof.
  intros H. unfold rstrip. rewrite rev_app_distr. simpl.
  rewrite H. simpl. now rewrite rev_involutive.
Qed.

Lemma rstrip_snoc_drop (p : pystr) (c : char) :
  isspace c = true -> rstrip (p ++ [c]) = rstrip p.
Proof.
  intros H. unfold rstrip. rewrite rev_app_distr. simpl. now rewrite H.
Qed.

Lemma rstrip_nil : rstrip [] = [].
Proof. reflexivity. Qed.

Lemma rstrip_length (s : pystr) : (length (rstrip s) <= length s)%nat.
Proof.
  unfold rstrip. rewrite length_rev.
  etransitivity; [apply lstrip_length|]. now rewrite length_rev.
Qed.

(** Trimming on the right keeps the first character. *)
Lemma rstrip_head (c : char) (t : pystr) :
  isspace c = false -> exists t', rstrip (c :: t) = c :: t'.
Proof.
  intros Hc. revert c Hc.
  induction t as [|d t IH] using rev_ind; intros c Hc.
  - exists []. apply (rstrip_snoc_keep [] c Hc).
  - change (c :: t ++ [d]) with ((c :: t) ++ [d]).
    destruct (isspace d) eqn:Ed.
    + rewrite rstrip_snoc_drop by exact Ed. now apply IH.
    + rewrite rstrip_snoc_keep by exact Ed. now exists (t ++ [d]).
Qed.

Lemma strip_starts (s : pystr) :
  match strip s with [] => True | c :: _ => isspace c = false end.
Proof.
  unfold strip. pose proof (lstrip_starts s) as H.
  destruct (lstrip s) as [|c t]; [exact I|].
  destruct (rstrip_head c t H) as [t' ->]. exact H.
Qed.

Lemma strip_length (s : pystr) : (length (strip s) <= length s)%nat.
Proof.
  unfold strip. etransitivity; [apply rstrip_length|apply lstrip_length].
Qed.

(** *** Runs of whitespace *)

Lemma isspace_space : isspace 0x20 = true.
Proof. reflexivity. Qed.

Lemma newline_is_space (c : char) : is_newline c = true -> isspace c = true.
Proof.
  unfold is_newline, isspace.
  rewrite !orb_true_iff, !andb_true_iff, !N.leb_le, !N.eqb_eq. lia.
Qed.

Lemma sub_ws_from_spaced (b : bool) (s : pystr) :
  single_spaced b (sub_ws_from b s) = true.
Proof.
  revert b; induction s as [|c t IH]; intros b; simpl; [reflexivity|].
  destruct (isspace c) eqn:Ec.
  - destruct b; [apply IH|]. simpl. apply IH.
  - simpl. rewrite Ec. apply IH.
Qed.

Lemma sub_ws_from_fixed (b : bool) (s : pystr) :
  single_spaced b s = true -> sub_ws_from b s = s.
Proof.
  revert b; induction s as [|c t IH]; intros b; simpl; [reflexivity|].
  destruct (isspace c) eqn:Ec; intros H.
  - apply andb_true_iff in H as [H Ht]. apply andb_true_iff in H as [Hb Hc].
    apply N.eqb_eq in Hc. destruct b; [discriminate|].
    rewrite (IH _ Ht). now subst.
  - now rewrite (IH _ H).
Qed.

Lemma sub_ws_from_length (b : bool) (s : pystr) :
  (length (sub_ws_from b s) <= length s)%nat.
Proof.
  revert b; induction s as [|c t IH]; intros b; simpl; [lia|].
  pose proof (IH true). pose proof (IH false).
  destruct (isspace c); [destruct b|]; simpl; lia.
Qed.

Lemma sub_ws_from_head (c : char) (t : pystr) :
  isspace c = false -> sub_ws_from false (c :: t) = c :: sub_ws_from false t.
Proof. intros H. simpl. now rewrite H. Qed.

Lemma single_spaced_firstn (n : nat) (b : bool) (s : pystr) :
  single_spaced b s = true -> single_spaced b (firstn n s) = true.
Proof.
  revert n b; induction s as [|c t IH]; intros [|n] b; simpl; try reflexivity.
  destruct (isspace c); intros H.
  - apply andb_true_iff in H as [H Ht]. rewrite H. now apply IH.
  - now apply IH.
Qed.

Lemma single_spaced_snoc (b : bool) (s : pystr) (c : char) :
  isspace c = false -> single_spaced b s = true ->
  single_spaced b (s ++ [c]) = true.
Proof.
  intros Hc. revert b; induction s as [|d t IH]; intros b; simpl.
  - now rewrite Hc.
  - destruct (isspace d); intros H.
    + apply andb_true_iff in H as [H Ht]. rewrite H. now apply IH.
    + now apply IH.
Qed.

Lemma single_spaced_removelast (b : bool) (s : pystr) :
  single_spaced b s = true -> single_spaced b (removelast s) = true.
Proof.
  intros H. destruct (snoc_cases s) as [->|(p & c & ->)]; [exact H|].
  rewrite removelast_snoc.
  replace p with (firstn (length p) (p ++ [c])).
  - now apply single_spaced_firstn.
  - rewrite firstn_app, Nat.sub_diag, firstn_all. simpl. apply app_nil_r.
Qed.

(** In a single-spaced text whitespace is the ASCII space. *)
Lemma single_spaced_In (b : bool) (s : pystr) (c : char) :
  single_spaced b s = true -> In c s -> isspace c = true -> c = 0x20.
Proof.
  revert b; induction s as [|d t IH]; intros b H Hin Hc; [contradiction|].
  simpl in H. destruct Hin as [->|Hin].
  - rewrite Hc in H. apply andb_true_iff in H as [H _].
    apply andb_true_iff in H as [_ H]. now apply N.eqb_eq in H.
  - destruct (isspace d).
    + apply andb_true_iff in H as [_ H]. eapply IH; eauto.
    + eapply IH; eauto.
Qed.

End StringFacts.

(* ------------------------------------------------------------------ *)
(** ** one_sentence *)

Section OneSentence.

(** The note after the filler test, and after the period is appended. *)
Let base (note : option pystr) : pystr :=
  let n := sub_ws (strip (or_empty note)) in
  if (length n <? 20)%nat then filler else n.

Let dotted (n : pystr) : pystr :=
  if negb (endswith n (lit ".")) then n ++ lit "." else n.

Lemma before_truncation_stages (note : option pystr) :
  before_truncation note = drop_periods (dotted (base note)).
Proof. reflexivity. Qed.

Lemma one_sentence_truncates (note : option pystr) :
  one_sentence note = firstn 60 (before_truncation note).
Proof. reflexivity. Qed.

(** The loop stops on a note without two trailing periods, keeps a
    trailing period, and only removes characters at the end. *)
Lemma drop_periods_loop_spec (fuel : nat) (note : pystr) :
  (length note <= fuel)%nat ->
  endswith (drop_periods_loop fuel note) (lit "..") = false
  /\ (endswith note (lit ".") = true ->
      endswith (drop_periods_loop fuel note) (lit ".") = true)
  /\ (exists n, drop_periods_loop fuel note = firstn n note)
  /\ (endswith note (lit "..") = false -> drop_periods_loop fuel note = note).
Proof.
  change (lit "..") with [0x2E; 0x2E]. change (lit ".") with [0x2E].
  revert note; induction fuel as [|fuel IH]; intros note Hlen.
  - destruct note; [|simpl in Hlen; lia]. simpl.
    split; [reflexivity|split; [trivial|split; [now exists 0%nat|trivial]]].
  - cbn [drop_periods_loop]. change (lit "..") with [0x2E; 0x2E].
    destruct (endswith note [0x2E; 0x2E]) eqn:E.
    + destruct (endswith_inv _ _ E) as [p ->].
      change (p ++ [0x2E; 0x2E]) with (p ++ [0x2E] ++ [0x2E]) in *.
      rewrite app_assoc in *. rewrite removelast_snoc.
      assert (Hp : (length (p ++ [0x2E%N]) <= fuel)%nat)
        by (unfold pystr, char in *; repeat rewrite length_app in Hlen;
            rewrite length_app; simpl in *; lia).
      destruct (IH (p ++ [0x2E]) Hp) as (H1 & H2 & (n & H3) & _).
      split; [|split; [|split]].
      * exact H1.
      * intros _. apply H2. now rewrite endswith_1.
      * exists (Nat.min n (length (p ++ [0x2E]))).
        rewrite <- firstn_firstn.
        rewrite (firstn_app (length (p ++ [0x2E]))), Nat.sub_diag,
          firstn_all, app_nil_r. exact H3.
      * discriminate.
    + split; [exact E|split; [trivial|split; [|trivial]]].
      exists (length note). now rewrite firstn_all.
Qed.

Lemma drop_periods_spec (note : pystr) :
  endswith (drop_periods note) (lit "..") = false
  /\ (endswith note (lit ".") = true ->
      endswith (drop_periods note) (lit ".") = true)
  /\ (exists n, drop_periods note = firstn n note)
  /\ (endswith note (lit "..") = false -> drop_periods note = note).
Proof. apply drop_periods_loop_spec. reflexivity. Qed.

Lemma dotted_ends (n : pystr) : endswith (dotted n) (lit ".") = true.
Proof.
  unfold dotted. lits. destruct (endswith n [0x2E]) eqn:E; simpl; [exact E|].
  now rewrite endswith_1.
Qed.

Lemma not_space_period : isspace 0x2E = false.
Proof. reflexivity. Qed.

Lemma dotted_spaced (n : pystr) :
  single_spaced false n = true -> single_spaced false (dotted n) = true.
Proof.
  unfold dotted. destruct (negb (endswith n (lit "."))); [|trivial].
  apply single_spaced_snoc. reflexivity.
Qed.

Lemma base_spaced (note : option pystr) : single_spaced false (base note) = true.
Proof.
  unfold base. destruct (length _ <? 20)%nat; [reflexivity|].
  apply sub_ws_from_spaced.
Qed.

(** The note starts with a character that is not whitespace. *)
Lemma base_head (note : option pystr) :
  exists c t, base note = c :: t /\ isspace c = false.
Proof.
  unfold base. destruct (length _ <? 20)%nat eqn:E.
  - now exists 0x4E, (lit "othing notable.").
  - apply Nat.ltb_ge in E. unfold sub_ws in *.
    pose proof (strip_starts (or_empty note)) as H.
    destruct (strip (or_empty note)) as [|c t]; [simpl in E; lia|].
    rewrite sub_ws_from_head by exact H. eauto.
Qed.

Lemma base_length (note : option pystr) :
  (length (base note) <= Nat.max 16 (length (strip (or_empty note))))%nat.
Proof.
  unfold base. destruct (length _ <? 20)%nat.
  - change (length filler) with 16%nat. lia.
  - pose proof (sub_ws_from_length false (strip (or_empty note))).
    unfold sub_ws. lia.
Qed.

Lemma dotted_length (n : pystr) : (length (dotted n) <= S (length n))%nat.
Proof.
  unfold dotted. destruct (negb _); [rewrite length_app; simpl|]; lia.
Qed.

Lemma before_truncation_ends (note : option pystr) :
  endswith (before_truncation note) (lit ".") = true
  /\ endswith (before_truncation note) (lit "..") = false.
Proof.
  rewrite before_truncation_stages.
  destruct (drop_periods_spec (dotted (base note))) as (H1 & H2 & _).
  split; [apply H2, dotted_ends|exact H1].
Qed.

Lemma before_truncation_prefix (note : option pystr) :
  exists n, before_truncation note = firstn n (dotted (base note)).
Proof.
  rewrite before_truncation_stages.
  now destruct (drop_periods_spec (dotted (base note))) as (_ & _ & H & _).
Qed.

Lemma before_truncation_length (note : option pystr) :
  (length (before_truncation note)
   <= S (Nat.max 16 (length (strip (or_empty note)))))%nat.
Proof.
  destruct (before_truncation_prefix note) as [n ->].
  rewrite length_firstn.
  pose proof (dotted_length (base note)). pose proof (base_length note). lia.
Qed.

Lemma one_sentence_prefix (note : option pystr) :
  exists n, one_sentence note = firstn n (dotted (base note)).
Proof.
  rewrite one_sentence_truncates.
  destruct (before_truncation_prefix note) as [n ->].
  exists (Nat.min 60 n). apply firstn_firstn.
Qed.

Lemma one_sentence_length (note : option pystr) :
  (length (one_sentence note) <= 60)%nat.
Proof. rewrite one_sentence_truncates, length_firstn. lia. Qed.

(** A note shorter than 60 characters was not truncated. *)
Lemma one_sentence_short (note : option pystr) :
  (length (one_sentence note) < 60)%nat ->
  one_sentence note = before_truncation note.
Proof.
  rewrite one_sentence_truncates, length_firstn. intros H.
  apply firstn_all2. lia.
Qed.

Lemma one_sentence_spaced (note : option pystr) :
  single_spaced false (one_sentence note) = true.
Proof.
  destruct (one_sentence_prefix note) as [n ->].
  apply single_spaced_firstn, dotted_spaced, base_spaced.
Qed.

Lemma one_sentence_head (note : option pystr) :
  exists c t, one_sentence note = c :: t /\ isspace c = false.
Proof.
  rewrite one_sentence_truncates.
  destruct (before_truncation_ends note) as [He _].
  destruct (before_truncation_prefix note) as [n Hn].
  destruct (base_head note) as (c & t & Hb & Hc).
  assert (Hd : exists t', dotted (base note) = c :: t').
  { unfold dotted. rewrite Hb. destruct (negb _); simpl; eauto. }
  destruct Hd as [t' Hd]. rewrite Hd in Hn.
  destruct (before_truncation note) as [|c' u] eqn:E; [discriminate He|].
  destruct n; [discriminate Hn|]. simpl in Hn. injection Hn as -> _.
  simpl. eauto.
Qed.

(** The output has no whitespace but single ASCII spaces, hence no line
    break of any kind. *)
Lemma one_sentence_no_newline (note : option pystr) (c : char) :
  In c (one_sentence note) -> is_newline c = false.
Proof.
  intros Hin. destruct (is_newline c) eqn:E; [|reflexivity].
  pose proof (single_spaced_In false (one_sentence note) c
                (one_sentence_spaced note) Hin (newline_is_space c E)) as ->.
  discriminate E.
Qed.

(** Second pass: trimming and whitespace collapsing leave a first-pass
    output alone unless it ends with a space. *)
Lemma one_sentence_strip_fixed (note : option pystr) :
  endswith (one_sentence note) (lit " ") = false ->
  strip (one_sentence note) = one_sentence note.
Proof.
  intros He. lits. destruct (one_sentence_head note) as (c & t & E & Hc).
  pose proof (one_sentence_spaced note) as Hs.
  unfold strip. rewrite E, (lstrip_head c t Hc), <- E.
  destruct (snoc_cases (one_sentence note)) as [H0|(p & d & H0)].
  - rewrite H0. reflexivity.
  - rewrite H0 in *. rewrite endswith_1 in He.
    apply rstrip_snoc_keep.
    destruct (isspace d) eqn:Ed; [|reflexivity].
    assert (d = 0x20) by
      (eapply single_spaced_In; eauto; apply in_or_app; right; now left).
    subst d. discriminate He.
Qed.

Lemma one_sentence_filler (y : option pystr) :
  (length (sub_ws (strip (or_empty y))) < 20)%nat -> one_sentence y = filler.
Proof.
  intros H. unfold one_sentence.
  replace (length (sub_ws (strip (or_empty y))) <? 20)%nat with true
    by (symmetry; now apply Nat.ltb_lt).
  reflexivity.
Qed.

Lemma one_sentence_keeps (y : option pystr) :
  (20 <= length (sub_ws (strip (or_empty y))))%nat ->
  one_sentence y
  = firstn 60 (drop_periods (dotted (sub_ws (strip (or_empty y))))).
Proof.
  intros H. unfold one_sentence, dotted.
  replace (length (sub_ws (strip (or_empty y))) <? 20)%nat with false
    by (symmetry; now apply Nat.ltb_ge).
  reflexivity.
Qed.

(** A settled note is a fixed point of [one_sentence]. *)
Lemma settled_fixed (note : option pystr) :
  settled (one_sentence note) = true ->
  one_sentence (Some (one_sentence note)) = one_sentence note.
Proof.
  set (r := one_sentence note). unfold settled. intros H.
  apply andb_true_iff in H as [H Hdd]. apply andb_true_iff in H as [Hlen Hsp].
  apply negb_true_iff in Hdd, Hsp.
  destruct (str_eqb r filler) eqn:Ef.
  { apply str_eqb_eq in Ef. rewrite Ef. reflexivity. }
  rewrite orb_false_r in Hlen. apply Nat.leb_le in Hlen.
  pose proof (one_sentence_strip_fixed note Hsp) as Hstrip. fold r in Hstrip.
  pose proof (sub_ws_from_fixed false r (one_sentence_spaced note)) as Hws.
  pose proof (one_sentence_length note) as H60. fold r in H60.
  rewrite one_sentence_keeps; simpl or_empty; rewrite Hstrip; unfold sub_ws;
    rewrite Hws; [|exact Hlen].
  unfold dotted. destruct (endswith r (lit ".")) eqn:Ed; simpl negb; cbv iota.
  - destruct (drop_periods_spec r) as (_ & _ & _ & Hfix).
    rewrite (Hfix Hdd). apply firstn_all2. lia.
  - assert (Hfull : length r = 60%nat).
    { destruct (Nat.lt_ge_cases (length r) 60) as [Hlt|Hge]; [|lia].
      apply one_sentence_short in Hlt. fold r in Hlt.
      destruct (before_truncation_ends note) as [He _].
      rewrite <- Hlt in He. congruence. }
    destruct (snoc_cases r) as [H0|(p & c & H0)];
      [rewrite H0 in Hfull; discriminate|].
    lits. rewrite H0 in *. rewrite endswith_1 in Ed.
    destruct (drop_periods_spec ((p ++ [c]) ++ [0x2E])) as (_ & _ & _ & Hfix).
    rewrite Hfix.
    + rewrite firstn_app, Hfull, Nat.sub_diag, firstn_O, app_nil_r.
      apply firstn_all2. lia.
    + lits. rewrite <- app_assoc. simpl app. rewrite endswith_2, Ed. reflexivity.
Qed.

(** A note that is not settled is changed by a further pass. *)
Lemma unsettled_changes (note : option pystr) :
  settled (one_sentence note) = false ->
  one_sentence (Some (one_sentence note)) <> one_sentence note.
Proof.
  set (r := one_sentence note). unfold settled. intros H Heq. lits.
  pose proof (one_sentence_length note) as H60. fold r in H60.
  assert (Hfull : endswith r [0x2E] = false \/ endswith r [0x2E; 0x2E] = true
                  -> length r = 60%nat).
  { intros Hc. destruct (Nat.lt_ge_cases (length r) 60) as [Hlt|Hge]; [|lia].
    apply one_sentence_short in Hlt. fold r in Hlt.
    destruct (before_truncation_ends note) as [He1 He2]. lits.
    rewrite <- Hlt in He1, He2. destruct Hc; congruence. }
  destruct (endswith r [0x2E; 0x2E]) eqn:Edd.
  { (* two trailing periods: the loop removes one *)
    pose proof (Hfull (or_intror eq_refl)) as Hlen.
    destruct (endswith_inv _ _ Edd) as [p Hp].
    assert (Hsp : endswith r [0x20] = false).
    { rewrite Hp. change (p ++ [0x2E; 0x2E]) with (p ++ [0x2E] ++ [0x2E]).
      rewrite app_assoc. now rewrite endswith_1. }
    pose proof (one_sentence_strip_fixed note Hsp) as Hstrip. fold r in Hstrip.
    pose proof (sub_ws_from_fixed false r (one_sentence_spaced note)) as Hws.
    assert (H20 : (20 <= length (sub_ws (strip (or_empty (Some r)))))%nat)
      by (simpl or_empty; rewrite Hstrip; unfold sub_ws; rewrite Hws; lia).
    rewrite (one_sentence_keeps _ H20) in Heq. simpl or_empty in Heq.
    rewrite Hstrip in Heq. unfold sub_ws in Heq. rewrite Hws in Heq.
    destruct (drop_periods_spec (dotted r)) as (Hno & _ & (n & Hn) & _).
    assert (Hd : dotted r = r).
    { unfold dotted. lits. replace (endswith r [0x2E]) with true; [reflexivity|].
      rewrite Hp. change (p ++ [0x2E; 0x2E]) with (p ++ [0x2E] ++ [0x2E]).
      rewrite app_assoc. now rewrite endswith_1. }
    rewrite Hd in *. rewrite firstn_all2 in Heq.
    - rewrite Heq in Hno. lits. congruence.
    - rewrite Hn, length_firstn. lia. }
  destruct (endswith r [0x20]) eqn:Esp.
  { (* a trailing space: trimming makes room for the period *)
    destruct (endswith_inv _ _ Esp) as [p Hp].
    assert (Hnd : endswith r [0x2E] = false) by
      (rewrite Hp; now rewrite endswith_1).
    pose proof (Hfull (or_introl Hnd)) as Hlen.
    destruct (one_sentence_head note) as (c & t & E & Hc). fold r in E.
    assert (Hstrip : (length (strip r) <= 59)%nat).
    { unfold strip. rewrite E, (lstrip_head c t Hc), <- E, Hp.
      rewrite rstrip_snoc_drop by reflexivity.
      pose proof (rstrip_length p). rewrite Hp, length_app in Hlen.
      simpl in Hlen. lia. }
    pose proof (before_truncation_length (Some r)) as Hb. simpl or_empty in Hb.
    rewrite one_sentence_truncates, firstn_all2 in Heq by lia.
    destruct (before_truncation_ends (Some r)) as [He _]. lits.
    rewrite Heq in He. congruence. }
  (* shorter than 20 characters and not the filler *)
  cbn [negb] in H. rewrite !andb_true_r in H.
  apply orb_false_iff in H as [Hlt Hf].
  apply Nat.leb_gt in Hlt.
  rewrite one_sentence_filler in Heq.
  - rewrite <- Heq, str_eqb_refl in Hf. discriminate.
  - simpl or_empty. pose proof (sub_ws_from_length false (strip r)).
    pose proof (strip_length r). unfold sub_ws. lia.
Qed.

(** Only the truncation can take the trailing period away. *)
Lemma one_sentence_period_or_full (note : option pystr) :
  ((length (one_sentence note) < 60)%nat ->
   endswith (one_sentence note) (lit ".") = true
   /\ endswith (one_sentence note) (lit "..") = false)
  /\ (endswith (one_sentence note) (lit ".") = false ->
      length (one_sentence note) = 60%nat).
Proof.
  assert (Hshort : (length (one_sentence note) < 60)%nat ->
                   endswith (one_sentence note) (lit ".") = true
                   /\ endswith (one_sentence note) (lit "..") = false).
  { intros H. rewrite (one_sentence_short note H).
    apply before_truncation_ends. }
  split; [exact Hshort|]. intros He.
  pose proof (one_sentence_length note) as H60.
  destruct (Nat.lt_ge_cases (length (one_sentence note)) 60) as [Hlt|Hge];
    [|lia].
  destruct (Hshort Hlt) as [E _]. congruence.
Qed.

End OneSentence.

(* ------------------------------------------------------------------ *)
(** ** Decimal text of integers *)

Section Decimal.

Import PyInt.

Lemma dec_loop_more (fuel : nat) (n : N) (acc : pystr) :
  n / 10 <> 0 ->
  dec_loop (S fuel) n acc = dec_loop fuel (n / 10) ((0x30 + n mod 10) :: acc).
Proof.
  intros H. simpl. apply N.eqb_neq in H. now rewrite H.
Qed.

Lemma dec_loop_last (fuel : nat) (n : N) (acc : pystr) :
  n / 10 = 0 -> dec_loop (S fuel) n acc = (0x30 + n mod 10) :: acc.
Proof.
  intros H. simpl. apply N.eqb_eq in H. now rewrite H.
Qed.

(** The fuel of [str_of_N] covers the binary digits of the number. *)
Lemma log2_fuel (k n : N) :
  2 ^ k <= n -> (N.to_nat k <= N.to_nat (N.log2 n))%nat.
Proof.
  intros H. assert (0 < n) by (pose proof (N.pow_nonzero 2 k); lia).
  apply N.log2_le_pow2 in H; [lia|assumption].
Qed.

Lemma str_of_N_1 (n : N) : n < 10 -> str_of_N n = [0x30 + n].
Proof.
  intros H. unfold str_of_N. rewrite dec_loop_last.
  - now rewrite N.mod_small.
  - now apply N.div_small.
Qed.

Lemma str_of_N_2 (n : N) :
  10 <= n < 100 -> str_of_N n = [0x30 + n / 10 mod 10; 0x30 + n mod 10].
Proof.
  intros H. unfold str_of_N.
  assert (Hf : (3 <= N.to_nat (N.log2 n))%nat) by (apply (log2_fuel 3); simpl; lia).
  destruct (N.to_nat (N.log2 n)) as [|f]; [lia|].
  rewrite dec_loop_more, dec_loop_last; [reflexivity| |].
  - apply N.div_small. apply N.Div0.div_lt_upper_bound. lia.
  - intros E. apply N.div_small_iff in E; lia.
Qed.

Lemma str_of_N_4 (n : N) :
  1000 <= n < 10000 ->
  str_of_N n = [0x30 + n / 10 / 10 / 10 mod 10; 0x30 + n / 10 / 10 mod 10;
                0x30 + n / 10 mod 10; 0x30 + n mod 10].
Proof.
  intros H. unfold str_of_N.
  assert (Hf : (9 <= N.to_nat (N.log2 n))%nat) by (apply (log2_fuel 9); simpl; lia).
  destruct (N.to_nat (N.log2 n)) as [|[|[|f]]]; [lia..|].
  rewrite dec_loop_more, dec_loop_more, dec_loop_more, dec_loop_last;
    [reflexivity|..];
    rewrite ?N.Div0.div_div; try (apply N.div_small; lia);
    intros E; apply N.div_small_iff in E; lia.
Qed.

Lemma str_of_N_5 (n : N) :
  10000 <= n < 100000 ->
  str_of_N n = [0x30 + n / 10 / 10 / 10 / 10 mod 10;
                0x30 + n / 10 / 10 / 10 mod 10; 0x30 + n / 10 / 10 mod 10;
                0x30 + n / 10 mod 10; 0x30 + n mod 10].
Proof.
  intros H. unfold str_of_N.
  assert (Hf : (13 <= N.to_nat (N.log2 n))%nat) by (apply (log2_fuel 13); simpl; lia).
  destruct (N.to_nat (N.log2 n)) as [|[|[|[|f]]]]; [lia..|].
  rewrite dec_loop_more, dec_loop_more, dec_loop_more, dec_loop_more,
    dec_loop_last; [reflexivity|..];
    rewrite ?N.Div0.div_div; try (apply N.div_small; lia);
    intros E; apply N.div_small_iff in E; lia.
Qed.

Lemma is_ascii_digit_mod (k : N) : is_ascii_digit (0x30 + k mod 10) = true.
Proof.
  unfold is_ascii_digit.
  apply andb_true_iff; split; apply N.leb_le; divlia.
Qed.

Lemma digit_val_mod (k : N) : digit_val (0x30 + k mod 10) = Z.of_N (k mod 10).
Proof. unfold digit_val. divlia. Qed.

Lemma format_0d_2 (z : Z) :
  (0 <= z < 100)%Z ->
  format_0d 2 z = [0x30 + Z.abs_N z / 10 mod 10; 0x30 + Z.abs_N z mod 10].
Proof.
  intros H. unfold format_0d.
  replace (z <? 0)%Z with false by (symmetry; apply Z.ltb_ge; lia).
  destruct (N.lt_ge_cases (Z.abs_N z) 10) as [Hs|Hb].
  - rewrite str_of_N_1 by exact Hs. simpl.
    rewrite (N.div_small _ _ Hs), (N.mod_small _ _ Hs). reflexivity.
  - rewrite str_of_N_2 by lia. reflexivity.
Qed.

Lemma format_0d_4 (z : Z) :
  (1000 <= z < 10000)%Z ->
  format_0d 4 z = [0x30 + Z.abs_N z / 10 / 10 / 10 mod 10;
                   0x30 + Z.abs_N z / 10 / 10 mod 10;
                   0x30 + Z.abs_N z / 10 mod 10; 0x30 + Z.abs_N z mod 10].
Proof.
  intros H. unfold format_0d.
  replace (z <? 0)%Z with false by (symmetry; apply Z.ltb_ge; lia).
  rewrite str_of_N_4 by lia. reflexivity.
Qed.

(** A rendered date reads back as the numbers it was made of. *)
Lemma dob_fields_render (y m day : Z) :
  (1000 <= y < 10000)%Z -> (0 <= m < 100)%Z -> (0 <= day < 100)%Z ->
  dob_fields (render_dob y m day) = Some (y, m, day).
Proof.
  intros Hy Hm Hd. unfold render_dob.
  rewrite (format_0d_4 y Hy), (format_0d_2 m Hm), (format_0d_2 day Hd).
  change (lit "-") with [0x2D]. cbn [app]. unfold dob_fields. cbn [forallb].
  rewrite !is_ascii_digit_mod. rewrite !N.eqb_refl. cbn [andb].
  rewrite !digit_val_mod. do 3 f_equal; divlia.
Qed.

Lemma randint_range (a b : Z) (g : rng) :
  (a <= b)%Z -> (a <= fst (randint a b g) <= b)%Z.
Proof.
  intros H. unfold randint. cbn [fst].
  pose proof (Z.mod_pos_bound (Z.of_N (entropy g (drawn g))) (b - a + 1)).
  lia.
Qed.

Lemma nearest_min_max (lo hi v : Z) :
  (lo <= hi)%Z -> Z.min (Z.max v lo) hi = nearest lo hi v.
Proof.
  intros H. unfold nearest.
  destruct (v <? lo)%Z eqn:E1; [apply Z.ltb_lt in E1; lia|].
  apply Z.ltb_ge in E1.
  destruct (hi <? v)%Z eqn:E2; [apply Z.ltb_lt in E2|apply Z.ltb_ge in E2]; lia.
Qed.

Lemma nearest_range (lo hi v : Z) :
  (lo <= hi)%Z -> (lo <= nearest lo hi v <= hi)%Z.
Proof.
  intros H. unfold nearest.
  destruct (v <? lo)%Z eqn:E1; [lia|]. apply Z.ltb_ge in E1.
  destruct (hi <? v)%Z eqn:E2; [apply Z.ltb_lt in E2|apply Z.ltb_ge in E2]; lia.
Qed.

Lemma dob_shape_render (y m day : Z) :
  (1920 <= y <= 2024)%Z -> (1 <= m <= 12)%Z -> (1 <= day <= 28)%Z ->
  dob_shape (render_dob y m day) = true.
Proof.
  intros Hy Hm Hd. unfold dob_shape.
  rewrite dob_fields_render by lia.
  repeat (apply andb_true_iff; split); apply Z.leb_le; lia.
Qed.

Lemma random_dob_shape (g : rng) : dob_shape (fst (random_dob g)) = true.
Proof.
  unfold random_dob.
  pose proof (randint_range 1920 2024 g) as Hy.
  destruct (randint 1920 2024 g) as [y g1].
  pose proof (randint_range 1 12 g1) as Hm.
  destruct (randint 1 12 g1) as [m g2].
  pose proof (randint_range 1 28 g2) as Hd.
  destruct (randint 1 28 g2) as [day g3].
  cbn [fst] in *. apply dob_shape_render; lia.
Qed.

(** *** Decimal digits of the Unicode tables *)

Lemma decimal_in_bounds (runs : list (N * N)) (c : char) (d : N) :
  decimal_in runs c = Some d ->
  exists first len, In (first, len) runs /\ first <= c < first + len.
Proof.
  induction runs as [|[first len] rest IH]; simpl; [discriminate|].
  destruct ((first <=? c) && (c <? first + len)) eqn:E.
  - intros _. exists first, len. split; [now left|].
    apply andb_true_iff in E as [E1 E2].
    apply N.leb_le in E1. apply N.ltb_lt in E2. lia.
  - intros H. destruct (IH H) as (f & l & Hin & Hb). eauto.
Qed.

Lemma ascii_digit_decimal (c : char) :
  is_ascii_digit c = true -> isdecimal c = true.
Proof.
  unfold is_ascii_digit, isdecimal, to_decimal. intros H.
  apply andb_true_iff in H as [H1 H2].
  apply N.leb_le in H1. apply N.leb_le in H2.
  unfold decimal_runs. cbn [decimal_in].
  replace ((48 <=? c) && (c <? 48 + 10)) with true; [reflexivity|].
  symmetry. apply andb_true_iff. split; [apply N.leb_le|apply N.ltb_lt]; lia.
Qed.

(** Below U+0080 the decimal digits are the ASCII digits. *)
Lemma decimal_ascii (c : char) :
  c < 128 -> isdecimal c = true -> is_ascii_digit c = true.
Proof.
  unfold isdecimal, to_decimal. intros Hc H.
  destruct (decimal_in decimal_runs c) as [d|] eqn:E; [|discriminate].
  apply decimal_in_bounds in E as (first & len & Hin & Hb).
  assert (Hall : forallb (fun r => (fst r =? 0x30) && (snd r =? 10)
                                   || (128 <=? fst r)) decimal_runs = true)
    by reflexivity.
  rewrite forallb_forall in Hall. specialize (Hall _ Hin). cbn [fst snd] in Hall.
  unfold is_ascii_digit.
  apply orb_true_iff in Hall as [Hr|Hr].
  - apply andb_true_iff in Hr as [H1 H2].
    apply N.eqb_eq in H1. apply N.eqb_eq in H2.
    apply andb_true_iff; split; apply N.leb_le; lia.
  - apply N.leb_le in Hr. lia.
Qed.

Lemma str_5_digits (r : Z) :
  (10000 <= r <= 99999)%Z -> is_zip5 (PyInt.str r) = true.
Proof.
  intros H. unfold PyInt.str.
  replace (r <? 0)%Z with false by (symmetry; apply Z.ltb_ge; lia).
  rewrite str_of_N_5 by lia. unfold is_zip5. cbn [length forallb].
  rewrite !is_ascii_digit_mod. reflexivity.
Qed.

End Decimal.

(* ------------------------------------------------------------------ *)
(** ** parse_json_strict *)

Section ExtractorFacts.

Variable J : json_codec.

Lemma lstrip_ws_app (ws rest : pystr) :
  forallb isspace ws = true -> lstrip (ws ++ rest) = lstrip rest.
Proof.
  induction ws as [|c ws IH]; simpl; [reflexivity|].
  intros H. apply andb_true_iff in H as [Hc Hws]. rewrite Hc. now apply IH.
Qed.

(** The pattern matches at the head of a text exactly when the text
    opens an array, then after whitespace only an object. *)
Lemma match_here_spec (s : pystr) :
  match_here s = true <->
  exists ws post, s = 0x5B :: ws ++ 0x7B :: post /\ forallb isspace ws = true.
Proof.
  split.
  - destruct s as [|c t]; simpl; [discriminate|]. intros H.
    apply andb_true_iff in H as [Hc Ht]. apply N.eqb_eq in Hc. subst c.
    destruct (lstrip_split t) as (ws & E & Hws).
    destruct (lstrip t) as [|d post]; [discriminate|].
    apply N.eqb_eq in Ht. subst d. exists ws, post.
    split; [f_equal; exact E|exact Hws].
  - intros (ws & post & -> & Hws). simpl.
    rewrite (lstrip_ws_app ws _ Hws). reflexivity.
Qed.

Lemma has_array_open_nil : ~ has_array_open [].
Proof.
  intros (pre & ws & post & E & _). destruct pre; discriminate E.
Qed.

Lemma has_array_open_cons (c : char) (t : pystr) :
  has_array_open (c :: t) <-> match_here (c :: t) = true \/ has_array_open t.
Proof.
  split.
  - intros ([|d pre] & ws & post & E & Hws).
    + left. apply match_here_spec. exists ws, post. now split.
    + right. injection E as _ E. now exists pre, ws, post.
  - intros [H|(pre & ws & post & E & Hws)].
    + apply match_here_spec in H as (ws & post & E & Hws).
      now exists [], ws, post.
    + exists (c :: pre), ws, post. split; [now rewrite E|exact Hws].
Qed.

Lemma search_from_none (i : nat) (s : pystr) :
  search_from i s = None <-> ~ has_array_open s.
Proof.
  revert i; induction s as [|c t IH]; intros i.
  - simpl. split; [intros _; apply has_array_open_nil|reflexivity].
  - cbn [search_from]. rewrite has_array_open_cons.
    destruct (match_here (c :: t)).
    + split; [discriminate|]. intros H. exfalso. apply H. now left.
    + rewrite (IH (S i)). split.
      * intros H [H'|H']; [discriminate|contradiction].
      * intros H H'. apply H. now right.
Qed.

(** The position found is the first one where the pattern matches. *)
Lemma search_from_some (i : nat) (s : pystr) (j : nat) :
  search_from i s = Some j ->
  exists k, j = (i + k)%nat /\ (k < length s)%nat
            /\ match_here (skipn k s) = true
            /\ forall k', (k' < k)%nat -> match_here (skipn k' s) = false.
Proof.
  revert i; induction s as [|c t IH]; intros i; [discriminate|].
  cbn [search_from]. destruct (match_here (c :: t)) eqn:E.
  - intros [= <-]. exists 0%nat. simpl. repeat split; try lia; try exact E.
  - intros H. destruct (IH _ H) as (k & -> & Hk & Hm & Hfirst).
    exists (S k). simpl. repeat split; try lia; try exact Hm.
    intros [|k'] Hk'; [exact E|]. apply Hfirst. lia.
Qed.

Lemma scan_brackets_never_no_array
  (text : pystr) (start i : nat) (rest : pystr) (depth : Z) :
  scan_brackets J text start i rest depth <> Raise NoArrayFound.
Proof.
  revert i depth; induction rest as [|ch rest IH]; intros i depth; simpl.
  - discriminate.
  - destruct (ch =? 0x5B); [apply IH|].
    destruct (ch =? 0x5D); [|apply IH].
    destruct (depth - 1 =? 0)%Z; [|apply IH].
    destruct (loads J _); discriminate.
Qed.

Lemma depth_of_cons_firstn (c : char) (t : pystr) (k : nat) :
  depth_of (firstn (S k) (c :: t))
  = ((if (c =? 0x5B)%N then 1 else if (c =? 0x5D)%N then -1 else 0)
     + depth_of (firstn k t))%Z.
Proof. reflexivity. Qed.

(** With a positive depth, the loop runs to the end of the text exactly
    when no prefix of the rest brings the depth back to zero. *)
Lemma scan_brackets_unbalanced
  (text : pystr) (start i : nat) (rest : pystr) (depth : Z) :
  (1 <= depth)%Z ->
  (scan_brackets J text start i rest depth = Raise UnbalancedArray <->
   forall k, (0 < k <= length rest)%nat ->
             (depth + depth_of (firstn k rest))%Z <> 0%Z).
Proof.
  revert i depth; induction rest as [|ch rest IH]; intros i depth Hd.
  - simpl. split; [|reflexivity]. intros _ k Hk. lia.
  - cbn [scan_brackets].
    assert (Hstep : forall delta : Z,
      (delta = if (ch =? 0x5B)%N then 1 else if (ch =? 0x5D)%N then -1 else 0)%Z ->
      (1 <= depth + delta)%Z ->
      ((forall k, (0 < k <= length rest)%nat ->
           (depth + delta + depth_of (firstn k rest))%Z <> 0%Z)
       <-> (forall k, (0 < k <= length (ch :: rest))%nat ->
           (depth + depth_of (firstn k (ch :: rest)))%Z <> 0%Z))).
    { intros delta Hdelta Hpos. split; intros H k Hk.
      - destruct k as [|k]; [lia|]. rewrite depth_of_cons_firstn, <- Hdelta.
        destruct k as [|k]; [simpl; lia|].
        specialize (H (S k)). simpl in Hk. rewrite Z.add_assoc. apply H. lia.
      - specialize (H (S k)). rewrite depth_of_cons_firstn, <- Hdelta in H.
        rewrite Z.add_assoc in H. apply H. simpl. lia. }
    destruct (ch =? 0x5B) eqn:Eo.
    + rewrite IH by lia. apply Hstep; [reflexivity|lia].
    + destruct (ch =? 0x5D) eqn:Ec.
      * destruct (depth - 1 =? 0)%Z eqn:Ez.
        -- apply Z.eqb_eq in Ez. split.
           ++ destruct (loads J _); discriminate.
           ++ intros H. exfalso. apply (H 1%nat); [simpl; lia|].
              rewrite depth_of_cons_firstn, Eo, Ec. simpl. lia.
        -- apply Z.eqb_neq in Ez. rewrite IH by lia.
           apply (Hstep (-1)%Z); [reflexivity|lia].
      * rewrite IH by lia. rewrite <- (Hstep 0%Z); [|reflexivity|lia].
        split; intros H k Hk; specialize (H k Hk); lia.
Qed.

Lemma parse_json_strict_no_array (text : pystr) :
  parse_json_strict J text = Raise NoArrayFound <-> ~ has_array_open text.
Proof.
  unfold parse_json_strict, search_array_open.
  rewrite <- (search_from_none 0 text).
  destruct (search_from 0 text) as [start|]; [|tauto].
  split; [|discriminate]. intros H.
  now apply scan_brackets_never_no_array in H.
Qed.

Lemma match_here_head (s : pystr) :
  match_here s = true -> exists t, s = 0x5B :: t.
Proof.
  intros H. apply match_here_spec in H as (ws & post & -> & _). eauto.
Qed.

End ExtractorFacts.

(* ------------------------------------------------------------------ *)
(** ** Names *)

Section TitleFacts.

Variable U : case_tables.

(** The loop of [str.title] produces, index by index, the pieces of
    [title_piece]. *)
Lemma do_title_pieces (pre rest : pystr) :
  do_title U (pre ++ rest) (length pre) rest
    (match length pre with
     | O => false
     | S j => is_cased U (nth j (pre ++ rest) 0)
     end)
  = concat (map (title_piece U (pre ++ rest)) (seq (length pre) (length rest))).
Proof.
  revert pre; induction rest as [|c rest IH]; intros pre; [reflexivity|].
  cbn [do_title length seq map concat].
  assert (Hc : nth (length pre) (pre ++ c :: rest) 0 = c) by apply nth_middle.
  specialize (IH (pre ++ [c])).
  rewrite <- app_assoc, length_app in IH. cbn [app length] in IH.
  rewrite Nat.add_1_r in IH. cbn iota in IH. rewrite Hc in IH.
  rewrite IH. f_equal.
  unfold title_piece. rewrite Hc. destruct (length pre); reflexivity.
Qed.

Lemma title_pieces (s : pystr) :
  title U s = concat (map (title_piece U s) (seq 0 (length s))).
Proof. exact (do_title_pieces [] s). Qed.

Lemma clean_name_length (s : pystr) : (length (clean_name U s) <= 12)%nat.
Proof. unfold clean_name. rewrite length_firstn. lia. Qed.

End TitleFacts.

(** Trimming removes whitespace at both ends and nothing else. *)
Lemma strip_spec (s : pystr) :
  (exists l r, s = l ++ strip s ++ r
               /\ forallb isspace l = true /\ forallb isspace r = true)
  /\ match strip s with [] => True | c :: _ => isspace c = false end
  /\ match rev (strip s) with [] => True | c :: _ => isspace c = false end.
Proof.
  split; [|split].
  - destruct (lstrip_split s) as (l & El & Hl).
    destruct (lstrip_split (rev (lstrip s))) as (r & Er & Hr).
    exists l, (rev r). split; [|split].
    + unfold strip, rstrip. rewrite <- rev_app_distr, <- Er, rev_involutive.
      exact El.
    + exact Hl.
    + rewrite forallb_forall in *. intros c Hc. apply Hr. now apply in_rev.
  - apply strip_starts.
  - unfold strip, rstrip. rewrite rev_involutive. apply lstrip_starts.
Qed.

(* ------------------------------------------------------------------ *)
(** ** The batch pipeline *)

Section PipelineFacts.

Variable U : case_tables.
Variable J : json_codec.

Lemma same_store_refl (w : world) : same_store w w.
Proof. now repeat split. Qed.

Lemma same_store_trans (w1 w2 w3 : world) :
  same_store w1 w2 -> same_store w2 w3 -> same_store w1 w3.
Proof.
  unfold same_store. intros H1 H2.
  repeat match goal with H : _ /\ _ |- _ => destruct H end.
  repeat split; congruence.
Qed.

Lemma frames_ret {A : Type} (a : A) : frames (ret a).
Proof. intros w r w' [= <- <-]. apply same_store_refl. Qed.

Lemma frames_raise {A : Type} (e : error) : frames (@raise A e).
Proof. intros w r w' [= <- <-]. apply same_store_refl. Qed.

Lemma frames_lift {A : Type} (x : result A) : frames (lift x).
Proof. intros w r w' [= <- <-]. apply same_store_refl. Qed.

Lemma frames_with_rng {A : Type} (f : rng -> A * rng) : frames (with_rng f).
Proof.
  intros w r w'. unfold with_rng. destruct (f (gen w)) as [a g].
  intros [= <- <-]. now repeat split.
Qed.

Lemma frames_bind {A B : Type} (c : M A) (k : A -> M B) :
  frames c -> (forall a, frames (k a)) -> frames (bind c k).
Proof.
  intros Hc Hk w r w'. unfold bind.
  destruct (c w) as [[a|e] w1] eqn:E.
  - intros H. eapply same_store_trans; [eapply Hc, E|eapply Hk, H].
  - intros [= <- <-]. eapply Hc, E.
Qed.

Lemma frames_name_field (p : json) (key : string) : frames (name_field U p key).
Proof.
  apply frames_bind; [apply frames_lift|].
  intros [ | | | |s| | ]; first [apply frames_ret|apply frames_raise].
Qed.

Lemma frames_clean_person (p : json) : frames (clean_person U p).
Proof.
  unfold clean_person.
  repeat first
    [ apply frames_name_field | apply frames_lift | apply frames_with_rng
    | apply frames_ret | apply frames_raise
    | apply frames_bind; [|intros ?]
    | match goal with |- frames (match ?v with _ => _ end) => destruct v end ].
Qed.

(** The loop appends one record per item, in order. *)
Lemma clean_loop_spec (items cleaned0 : list json) (w : world)
  (r : result (list json)) (w' : world) :
  clean_loop U items cleaned0 w = (r, w') ->
  same_store w w'
  /\ forall res, r = Ok res ->
       exists cleaned,
         res = cleaned0 ++ cleaned
         /\ Forall2 (fun p c => exists w1 w2, clean_person U p w1 = (Ok c, w2))
                    items cleaned.
Proof.
  revert cleaned0 w; induction items as [|p items IH]; intros cleaned0 w.
  - intros [= <- <-]. split; [apply same_store_refl|].
    intros res [= <-]. exists []. now rewrite app_nil_r.
  - cbn [clean_loop]. unfold bind at 1.
    destruct (clean_person U p w) as [[c|e] w1] eqn:E.
    + intros H. destruct (IH _ _ H) as (Hs & Hres).
      split; [eapply same_store_trans; [eapply frames_clean_person, E|exact Hs]|].
      intros res Hr. destruct (Hres res Hr) as (cleaned & -> & Hall).
      exists (c :: cleaned). rewrite <- app_assoc. split; [reflexivity|].
      constructor; [now exists w, w1|exact Hall].
    + intros [= <- <-].
      split; [eapply frames_clean_person, E|discriminate].
Qed.

Lemma load_existing_next (outfile : pystr) (w : world) :
  load_existing J outfile (next_request w) = load_existing J outfile w.
Proof. reflexivity. Qed.

(** The three ways a batch ends: it raises before anything is written;
    or every earlier step went through and [json.dump] raises, leaving a
    fragment in the store; or the store is written and one line is
    printed. *)
Lemma generate_people_cases (count : Z) (outfile : pystr) (w : world)
  (r : result unit) (w' : world) :
  generate_people U J count outfile w = (r, w') ->
  (exists e, r = Raise e /\ files w' = files w /\ stdout w' = stdout w
             /\ replies w' = replies w /\ requests w' = S (requests w))
  \/ (exists raw data existing items cleaned w1,
        model w count = Some raw
        /\ parse_json_strict J raw = Ok data
        /\ load_existing J outfile w = Ok existing
        /\ iterate data = Ok items
        /\ clean_loop U items [] (next_request w) = (Ok cleaned, w1)
        /\ ((exists fragment,
               dump_fragment J (JArr (cleaned ++ existing)) = Some fragment
               /\ r = Raise WriteFailure
               /\ w' = write_file outfile fragment w1)
            \/ (r = Ok tt
                /\ w' = print (wrote_line (length (cleaned ++ existing))
                                 outfile)
                          (write_file outfile
                             (dumps J (JArr (cleaned ++ existing))) w1)))).
Proof.
  unfold generate_people, bind, call_model, lift.
  destruct (model w count) as [raw|] eqn:Em;
    [|intros [= <- <-]; left; exists GenerationFailure; now repeat split].
  destruct (parse_json_strict J raw) as [data|e1] eqn:Ep;
    [|intros [= <- <-]; left; exists e1; now repeat split].
  rewrite load_existing_next.
  destruct (load_existing J outfile w) as [existing|e0] eqn:El;
    [|intros [= <- <-]; left; exists e0; now repeat split].
  destruct (iterate data) as [items|e2] eqn:Ei;
    [|intros [= <- <-]; left; exists e2; now repeat split].
  destruct (clean_loop U items [] (next_request w)) as [[cleaned|e3] w1] eqn:E.
  - destruct (clean_loop_spec _ _ _ _ _ E) as ((F & S & R & W & Rp & Rq) & _).
    unfold write_store. rewrite W. cbn [unwritable next_request].
    destruct (unwritable w outfile).
    + intros [= <- <-]. left. exists WriteFailure. now repeat split.
    + destruct (dump_fragment J (JArr (cleaned ++ existing)))
        as [fragment|] eqn:Ed; intros [= <- <-]; right;
        exists raw, data, existing, items, cleaned, w1;
        (repeat (split; [assumption || reflexivity|])).
      * left. now exists fragment.
      * right. now split.
  - intros [= <- <-]. left. exists e3.
    destruct (clean_loop_spec _ _ _ _ _ E) as ((F & S & R & W & Rp & Rq) & _).
    now repeat split.
Qed.

Lemma previous_records_ok (outfile : pystr) (w : world) (existing : list json) :
  load_existing J outfile w = Ok existing ->
  previous_records J outfile w = existing.
Proof. unfold previous_records. now intros ->. Qed.

End PipelineFacts.

(* ------------------------------------------------------------------ *)
(** * The claims *)

(** ** Notes *)

(** C1. The note must never end in more than one period.  For a note
    whose 59th and 60th characters are periods followed by more text,
    [one_sentence] appends the final period, finds no double period at
    the end, and then cuts after the 60th character: the result ends in
    two periods. *)
Theorem one_sentence_cut_leaves_two_periods :
  one_sentence (Some cut_note) = repeat 0x61 58 ++ lit ".."
  /\ endswith (one_sentence (Some cut_note)) (lit "..") = true.
Proof. split; reflexivity. Qed.

(** C9. An output shorter than 60 characters ends with exactly one
    period; an output without a trailing period has exactly 60
    characters. *)
Theorem one_sentence_short_ends_with_period (note : option pystr) :
  ((length (one_sentence note) < 60)%nat ->
   endswith (one_sentence note) (lit ".") = true
   /\ endswith (one_sentence note) (lit "..") = false)
  /\ (endswith (one_sentence note) (lit ".") = false ->
      length (one_sentence note) = 60%nat).
Proof. exact (one_sentence_period_or_full note). Qed.

Lemma one_sentence_short_ends_with_period_witness :
  (length (one_sentence None) < 60)%nat
  /\ endswith (one_sentence None) (lit ".") = true
  /\ endswith (one_sentence None) (lit "..") = false.
Proof.
  assert (H : (length (one_sentence None) < 60)%nat) by (vm_compute; lia).
  split; [exact H|].
  exact (proj1 (one_sentence_short_ends_with_period None) H).
Defined.

(** C2, as stated, fails: for the letter a followed by 19 periods nothing
    is truncated, yet the second pass gives another string; and for 61
    letters the truncation removes the period, yet the second pass gives
    the same string. *)
Lemma one_sentence_twice_counterexample :
  ((length (before_truncation (Some periods_note)) <= 60)%nat
   /\ one_sentence (Some periods_note) = lit "a."
   /\ one_sentence (Some (one_sentence (Some periods_note)))
      = lit "Nothing notable."
   /\ one_sentence (Some (one_sentence (Some periods_note)))
      <> one_sentence (Some periods_note))
  /\ ((60 < length (before_truncation (Some long_note)))%nat
      /\ endswith (one_sentence (Some long_note)) (lit ".") = false
      /\ one_sentence (Some (one_sentence (Some long_note)))
         = one_sentence (Some long_note)).
Proof.
  split.
  - split; [vm_compute; lia|]. split; [reflexivity|]. split; [reflexivity|].
    vm_compute. discriminate.
  - split; [vm_compute; lia|]. split; reflexivity.
Qed.

(** C2, amended.  A second pass of [one_sentence] gives the same string
    exactly when the first output is settled: it is the filler or has at
    least 20 characters, and it ends neither with a space nor with two
    periods.  In particular an output that lost its period to the
    truncation and ends with neither a space nor a period is unchanged:
    the period is appended and cut again. *)
Theorem one_sentence_twice (note : option pystr) :
  (one_sentence (Some (one_sentence note)) = one_sentence note
   <-> settled (one_sentence note) = true)
  /\ (endswith (one_sentence note) (lit ".") = false ->
      endswith (one_sentence note) (lit " ") = false ->
      one_sentence (Some (one_sentence note)) = one_sentence note).
Proof.
  assert (Hiff : one_sentence (Some (one_sentence note)) = one_sentence note
                 <-> settled (one_sentence note) = true).
  { split.
    - intros H. destruct (settled (one_sentence note)) eqn:E; [reflexivity|].
      exfalso. exact (unsettled_changes note E H).
    - apply settled_fixed. }
  split; [exact Hiff|]. intros Hp Hs. apply Hiff.
  destruct (one_sentence_period_or_full note) as [_ Hfull].
  specialize (Hfull Hp). unfold settled. rewrite Hs, Hfull.
  replace (endswith (one_sentence note) (lit "..")) with false; [reflexivity|].
  symmetry. destruct (endswith (one_sentence note) (lit "..")) eqn:E;
    [|reflexivity].
  apply endswith_inv in E as [p E]. rewrite E in Hp.
  change (lit "..") with ([0x2E] ++ [0x2E]) in Hp. rewrite app_assoc in Hp.
  change (lit ".") with [0x2E] in Hp. rewrite endswith_1 in Hp. discriminate.
Qed.

Lemma one_sentence_twice_witness :
  one_sentence (Some (one_sentence (Some long_note)))
  = one_sentence (Some long_note).
Proof.
  exact (proj2 (one_sentence_twice (Some long_note)) eq_refl eq_refl).
Defined.

(** ** Dates *)

(** C3. The output of [clamp_dob] always reads DDDD-DD-DD with the year
    in 1920..2024, the month in 1..12 and the day in 1..28; and when the
    input splits into three integers, the output holds each of them
    pulled to the nearest bound, and no random number is drawn. *)
Theorem clamp_dob_shape_and_clamping (d : pystr) (g : rng) :
  dob_shape (fst (clamp_dob d g)) = true
  /\ (forall y m day, parse_ymd d = Some (y, m, day) ->
        dob_fields (fst (clamp_dob d g))
        = Some (nearest 1920 2024 y, nearest 1 12 m, nearest 1 28 day)
        /\ snd (clamp_dob d g) = g).
Proof.
  unfold clamp_dob. destruct (parse_ymd d) as [[[y m] day]|].
  - cbn [fst snd]. rewrite !nearest_min_max by lia.
    pose proof (nearest_range 1920 2024 y). pose proof (nearest_range 1 12 m).
    pose proof (nearest_range 1 28 day).
    split; [apply dob_shape_render; lia|].
    intros y' m' day' [= <- <- <-]. split; [|reflexivity].
    apply dob_fields_render; lia.
  - split; [apply random_dob_shape|discriminate].
Qed.

Lemma clamp_dob_shape_and_clamping_witness :
  dob_fields (fst (clamp_dob (lit "1890-13-31") (gen sample_world)))
  = Some (1920, 12, 28)%Z.
Proof.
  exact (proj1 (proj2 (clamp_dob_shape_and_clamping (lit "1890-13-31")
                         (gen sample_world)) 1890 13 31 eq_refl)%Z).
Defined.

(** ** ZIP codes *)

(** C4. The ZIP code must be five ASCII digits.  [\D] of a [str]
    pattern keeps the decimal digits of every script, so five
    ARABIC-INDIC digits pass through [sanitize_zip] unchanged. *)
Theorem sanitize_zip_keeps_other_digits (g : rng) :
  sanitize_zip (Some arabic_zip) g = (arabic_zip, g)
  /\ is_zip5 (fst (sanitize_zip (Some arabic_zip) g)) = false.
Proof. split; reflexivity. Qed.

(** What [sanitize_zip] does ensure: five decimal digits, which are the
    input's digits when it has exactly five. *)
Lemma sanitize_zip_decimal (z : option pystr) (g : rng) :
  is_decimal5 (fst (sanitize_zip z g)) = true
  /\ (length (sub_nondigits (or_empty z)) = 5%nat ->
      sanitize_zip z g = (sub_nondigits (or_empty z), g))
  /\ (length (sub_nondigits (or_empty z)) <> 5%nat ->
      is_zip5 (fst (sanitize_zip z g)) = true).
Proof.
  unfold sanitize_zip.
  destruct (length (sub_nondigits (or_empty z)) =? 5)%nat eqn:E; cbn [negb].
  - apply Nat.eqb_eq in E. split; [|split; [reflexivity|congruence]].
    cbn [fst]. unfold is_decimal5. rewrite E. cbn [Nat.eqb andb].
    apply forallb_forall. intros c Hc. unfold sub_nondigits in Hc.
    now apply filter_In in Hc.
  - apply Nat.eqb_neq in E.
    pose proof (randint_range 10000 99999 g) as Hr.
    destruct (randint 10000 99999 g) as [r g']. cbn [fst] in *.
    assert (Hz : is_zip5 (PyInt.str r) = true) by (apply str_5_digits; lia).
    split; [|split; [congruence|intros _; exact Hz]].
    unfold is_zip5, is_decimal5 in *. apply andb_true_iff in Hz as [Hl Hd].
    rewrite Hl. cbn [andb]. apply forallb_forall. intros c Hc.
    rewrite forallb_forall in Hd. apply ascii_digit_decimal. now apply Hd.
Qed.

(** On ASCII input the result is five ASCII digits. *)
Lemma sanitize_zip_ascii (z : option pystr) (g : rng) :
  forallb (fun c => c <? 128) (or_empty z) = true ->
  is_zip5 (fst (sanitize_zip z g)) = true.
Proof.
  intros Hascii. destruct (sanitize_zip_decimal z g) as (Hd & Heq & Hne).
  destruct (Nat.eq_dec (length (sub_nondigits (or_empty z))) 5) as [E|E];
    [|exact (Hne E)].
  rewrite (Heq E) in *. cbn [fst] in *. unfold is_zip5, is_decimal5 in *.
  rewrite E in *. cbn [Nat.eqb andb] in *.
  apply forallb_forall. intros c Hc. rewrite forallb_forall in Hd, Hascii.
  apply decimal_ascii; [|now apply Hd].
  apply N.ltb_lt, Hascii. unfold sub_nondigits in Hc.
  now apply filter_In in Hc.
Qed.

(** ** The array extractor *)

(** C5. [parse_json_strict] raises the no-array error exactly when the
    text has no array-open bracket followed, with only whitespace
    between, by an object-open brace.  Otherwise the scan starts at the
    first such bracket, and it raises the unbalanced-array error exactly
    when the end of the text is reached before the bracket depth is back
    to zero. *)
Theorem parse_json_strict_failures (J : json_codec) (text : pystr) :
  (parse_json_strict J text = Raise NoArrayFound <-> ~ has_array_open text)
  /\ (forall start, search_array_open text = Some start ->
        (start < length text)%nat
        /\ match_here (skipn start text) = true
        /\ (forall k, (k < start)%nat -> match_here (skipn k text) = false)
        /\ (parse_json_strict J text = Raise UnbalancedArray <->
            forall k, (0 < k <= length text - start)%nat ->
                      depth_of (firstn k (skipn start text)) <> 0%Z)).
Proof.
  split; [apply parse_json_strict_no_array|].
  unfold parse_json_strict, search_array_open.
  - intros start Hs. rewrite Hs.
    destruct (search_from_some 0 text start Hs) as (k & -> & Hk & Hm & Hfirst).
    cbn [Nat.add]. split; [exact Hk|]. split; [exact Hm|].
    split; [exact Hfirst|].
    destruct (match_here_head _ Hm) as [t Ht]. rewrite Ht.
    cbn [scan_brackets]. rewrite N.eqb_refl.
    rewrite (scan_brackets_unbalanced J text k (S k) t (0 + 1)%Z) by lia.
    assert (Hlen : (length text - k = S (length t))%nat).
    { rewrite <- length_skipn, Ht. reflexivity. }
    rewrite Hlen. split; intros H n Hn.
    + destruct n as [|n]; [lia|]. rewrite depth_of_cons_firstn.
      rewrite N.eqb_refl. destruct n as [|n]; [simpl; lia|].
      apply (H (S n)). unfold pystr, char in *. lia.
    + specialize (H (S n)). rewrite depth_of_cons_firstn, N.eqb_refl in H.
      apply H. unfold pystr, char in *. lia.
Qed.

Lemma parse_json_strict_failures_witness :
  parse_json_strict sample_codec (lit "[ {} ") = Raise UnbalancedArray.
Proof.
  apply (proj2 (parse_json_strict_failures sample_codec (lit "[ {} "))
           0%nat eq_refl).
  intros k Hk.
  do 6 (destruct k as [|k]; [simpl in *; lia|]). simpl in Hk. lia.
Defined.

(** C10. The text [[]] holds a valid empty array, but no object-open
    brace follows its bracket: [parse_json_strict] raises the no-array
    error, whatever the decoder; and so it does for any text with no
    object-open brace at all. *)
Theorem parse_json_strict_empty_array (J : json_codec) :
  parse_json_strict J (lit "[]") = Raise NoArrayFound
  /\ forall pre post,
       ~ In 0x7B (pre ++ lit "[]" ++ post) ->
       parse_json_strict J (pre ++ lit "[]" ++ post) = Raise NoArrayFound.
Proof.
  split; [reflexivity|]. intros pre post Hno.
  apply parse_json_strict_no_array. intros (a & ws & b & E & _).
  apply Hno. rewrite E. apply in_or_app. right. right.
  apply in_or_app. right. now left.
Qed.

Lemma parse_json_strict_empty_array_witness :
  parse_json_strict sample_codec (lit "Result: " ++ lit "[]" ++ lit " (none)")
  = Raise NoArrayFound.
Proof.
  apply (proj2 (parse_json_strict_empty_array sample_codec)).
  simpl. intros H.
  repeat (destruct H as [H|H]; [discriminate H|]). exact H.
Defined.

(** ** Names *)

(** C8, as stated, fails: in [o'neil] the letter after the apostrophe is
    capitalised by [str.title], though it is not the first letter of a
    whitespace-separated word. *)
Lemma clean_name_words_counterexample :
  clean_name basic_latin (lit "o'neil") = lit "O'Neil"
  /\ words_clean_name basic_latin (lit "o'neil") = lit "O'neil"
  /\ clean_name basic_latin (lit "o'neil")
     <> words_clean_name basic_latin (lit "o'neil").
Proof. split; [reflexivity|]. split; [reflexivity|]. discriminate. Qed.

(** C8, amended.  The cleaned name is the input trimmed of whitespace at
    both ends, then title-cased character by character (a character is
    title-cased when it is the first one or follows a caseless
    character, such as a space, a hyphen, an apostrophe or a digit, and
    lowered when it follows a cased one), then cut to at most 12
    characters. *)
Theorem clean_name_title_case (U : case_tables) (s : pystr) :
  clean_name U s
  = firstn 12 (concat (map (title_piece U (strip s))
                           (seq 0 (length (strip s)))))
  /\ (length (clean_name U s) <= 12)%nat
  /\ (exists l r, s = l ++ strip s ++ r
                  /\ forallb isspace l = true /\ forallb isspace r = true)
  /\ match strip s with [] => True | c :: _ => isspace c = false end
  /\ match rev (strip s) with [] => True | c :: _ => isspace c = false end.
Proof.
  split; [|split; [apply clean_name_length|apply strip_spec]].
  unfold clean_name. now rewrite title_pieces.
Qed.

(** ** The batch *)

(** C7. When the model call fails, or the extraction or the decoding of
    its text fails, [generate_people] raises that error right after the
    request and the files are what they were.  More generally the files
    change only when every earlier step of the batch has succeeded: the
    model answered, the array was extracted and decoded, the store was
    read and every item was cleaned. *)
Theorem generate_people_failure_keeps_store
  (U : case_tables) (J : json_codec) (count : Z) (outfile : pystr) (w : world) :
  (model w count = None ->
   generate_people U J count outfile w
   = (Raise GenerationFailure, next_request w))
  /\ (forall raw e, model w count = Some raw ->
        parse_json_strict J raw = Raise e ->
        generate_people U J count outfile w = (Raise e, next_request w))
  /\ (forall r w', generate_people U J count outfile w = (r, w') ->
        files w' = files w \/ earlier_steps_succeeded U J count outfile w).
Proof.
  split; [|split].
  - unfold generate_people, bind, call_model. intros ->. reflexivity.
  - unfold generate_people, bind, call_model, lift. intros raw e -> ->.
    reflexivity.
  - intros r w' H.
    apply generate_people_cases in H as [(e & _ & F & _)|H]; [now left|].
    right. destruct H as (raw & data & existing & items & cleaned & w1 & H).
    exists raw, data, existing, items, cleaned, w1. tauto.
Qed.

Lemma generate_people_failure_keeps_store_witness :
  (generate_people basic_latin sample_codec 10 (lit "people.json") offline_world
   = (Raise GenerationFailure, next_request offline_world))
  /\ (generate_people basic_latin sample_codec 10 (lit "people.json")
        roster_world
      = (Raise DecodeFailure, next_request roster_world))
  /\ files (snd (generate_people basic_latin sample_codec 10
                   (lit "people.json") roster_world)) (lit "people.json")
     = Some (lit "Ada Lovelace;").
Proof.
  split; [|split; [|vm_compute; reflexivity]].
  - exact (proj1 (generate_people_failure_keeps_store basic_latin sample_codec
                    10 (lit "people.json") offline_world) eq_refl).
  - exact (proj1 (proj2 (generate_people_failure_keeps_store basic_latin
                           sample_codec 10 (lit "people.json") roster_world))
             (lit "Sure: [{alan}, {grace}]") DecodeFailure eq_refl eq_refl).
Defined.

(** C6. After a successful batch the store file holds the cleaned
    records, one per item of the extracted array and in its order,
    followed by the previous contents of the store (none when the file
    was missing or did not hold an array); the other files are
    untouched, and the count reported is the number of items plus the
    previous count. *)
Theorem generate_people_prepends
  (U : case_tables) (J : json_codec) (count : Z) (outfile : pystr)
  (w w' : world) :
  generate_people U J count outfile w = (Ok tt, w') ->
  exists raw data items cleaned,
    model w count = Some raw
    /\ parse_json_strict J raw = Ok data
    /\ iterate data = Ok items
    /\ Forall2 (fun p c => exists w1 w2, clean_person U p w1 = (Ok c, w2))
               items cleaned
    /\ files w' outfile
       = Some (dumps J (JArr (cleaned ++ previous_records J outfile w)))
    /\ (forall p, str_eqb p outfile = false -> files w' p = files w p)
    /\ length (cleaned ++ previous_records J outfile w)
       = (length items + length (previous_records J outfile w))%nat
    /\ stdout w'
       = stdout w
         ++ [lit "Wrote "
             ++ PyInt.str (Z.of_nat (length items
                                     + length (previous_records J outfile w)))
             ++ lit " people to " ++ outfile]
    /\ load_existing J outfile w = Ok (previous_records J outfile w)
    /\ (forall text old, files w outfile = Some text ->
          loads J text = Some (JArr old) ->
          previous_records J outfile w = old).
Proof.
  intros H. apply generate_people_cases in H as [(e & He & _)|H];
    [discriminate He|].
  destruct H as (raw & data & existing & items & res & w1
                 & Em & Ep & El & Ei & E & [(f & _ & He & _)|(_ & ->)]);
    [discriminate He|].
  destruct (clean_loop_spec U _ _ _ _ _ E) as ((F & S & _) & Hres).
  destruct (Hres res eq_refl) as (cleaned & -> & Hall).
  cbn [app] in *. rewrite (previous_records_ok J outfile w existing El).
  assert (Hlen : length (cleaned ++ existing)
                 = (length items + length existing)%nat).
  { rewrite length_app. f_equal. symmetry. eapply Forall2_length, Hall. }
  exists raw, data, items, cleaned.
  split; [exact Em|]. split; [exact Ep|]. split; [exact Ei|].
  split; [exact Hall|].
  cbn [files stdout print write_file]. rewrite str_eqb_refl, F, S, Hlen.
  cbn [files stdout next_request].
  split; [reflexivity|].
  split; [|split; [reflexivity|split; [reflexivity|split; [exact El|]]]].
  - intros p ->. reflexivity.
  - intros text old Hf Hl. unfold load_existing in El.
    destruct (unreadable w outfile); [discriminate El|].
    rewrite Hf, Hl in El. now injection El.
Qed.

Lemma generate_people_prepends_witness :
  (exists raw data items cleaned,
     model roster_world 10 = Some raw
     /\ parse_json_strict roster_codec raw = Ok data
     /\ iterate data = Ok items
     /\ Forall2 (fun p c => exists w1 w2,
                   clean_person basic_latin p w1 = (Ok c, w2)) items cleaned
     /\ files (snd (generate_people basic_latin roster_codec 10
                      (lit "people.json") roster_world)) (lit "people.json")
        = Some (dumps roster_codec
                  (JArr (cleaned ++ previous_records roster_codec
                                      (lit "people.json") roster_world))))
  /\ previous_records roster_codec (lit "people.json") roster_world
     = [ada_cleaned]
  /\ files (snd (generate_people basic_latin roster_codec 10
                   (lit "people.json") roster_world)) (lit "people.json")
     = Some (lit "Alan Turing;Grace Hopper;Ada Lovelace;")
  /\ stdout (snd (generate_people basic_latin roster_codec 10
                    (lit "people.json") roster_world))
     = [lit "Wrote 3 people to people.json"].
Proof.
  split; [|split; [|split]]; try reflexivity.
  destruct (generate_people_prepends basic_latin roster_codec 10
              (lit "people.json") roster_world
              (snd (generate_people basic_latin roster_codec 10
                      (lit "people.json") roster_world)) eq_refl)
    as (raw & data & items & cleaned & H1 & H2 & H3 & H4 & H5 & _).
  now exists raw, data, items, cleaned.
Defined.

(* ------------------------------------------------------------------ *)
(** * Further properties *)

(** ** one_sentence *)

Lemma lstrip_all_space (s : pystr) : forallb isspace s = true -> lstrip s = [].
Proof.
  induction s as [|c t IH]; simpl; [reflexivity|].
  intros H. apply andb_true_iff in H as [Hc Ht]. rewrite Hc. now apply IH.
Qed.

Lemma strip_all_space (s : pystr) : forallb isspace s = true -> strip s = [].
Proof. intros H. unfold strip. now rewrite (lstrip_all_space s H). Qed.

Lemma plain_spaces_of_single_spaced (s : pystr) :
  single_spaced false s = true -> plain_spaces s = true.
Proof.
  intros H. apply forallb_forall. intros c Hin.
  destruct (isspace c) eqn:Ec.
  - rewrite (single_spaced_In false s c H Hin Ec). reflexivity.
  - cbn [negb orb]. rewrite andb_true_r.
    destruct (is_newline c) eqn:En; [|reflexivity].
    apply newline_is_space in En. congruence.
Qed.

(** X1. The note returned has between 1 and 60 characters and does not
    start with whitespace. *)
Theorem one_sentence_bounds (note : option pystr) :
  (1 <= length (one_sentence note) <= 60)%nat
  /\ lstrip (one_sentence note) = one_sentence note.
Proof.
  destruct (one_sentence_head note) as (c & t & E & Hc).
  pose proof (one_sentence_length note) as H60. rewrite E in *.
  split; [simpl in *; lia|]. now apply lstrip_head.
Qed.

(** X2. The note returned holds no line break, its only whitespace is
    the ASCII space, and no two spaces are adjacent. *)
Theorem one_sentence_whitespace (note : option pystr) :
  plain_spaces (one_sentence note) = true
  /\ single_spaced false (one_sentence note) = true.
Proof.
  split; [|apply one_sentence_spaced].
  apply plain_spaces_of_single_spaced, one_sentence_spaced.
Qed.

(** X3. A missing note, a note of fewer than 20 characters and a note of
    whitespace only all give the filler sentence. *)
Theorem one_sentence_filler_cases (note : option pystr) :
  (length (or_empty note) < 20)%nat \/ forallb isspace (or_empty note) = true ->
  one_sentence note = filler.
Proof.
  intros H. apply one_sentence_filler.
  pose proof (sub_ws_from_length false (strip (or_empty note))) as Hs.
  pose proof (strip_length (or_empty note)) as Ht. unfold sub_ws.
  destruct H as [H|H]; [lia|].
  rewrite (strip_all_space _ H) in *. simpl. lia.
Qed.

Lemma one_sentence_filler_cases_witness :
  one_sentence (Some (repeat 0x0A 30)) = filler.
Proof.
  exact (one_sentence_filler_cases (Some (repeat 0x0A 30)) (or_intror eq_refl)).
Defined.

(** X4. A note that is already well formed comes back unchanged: 20 to
    60 characters, no whitespace at either end, single spaces only, and
    exactly one period at the end. *)
Theorem one_sentence_keeps_well_formed (s : pystr) :
  (20 <= length s <= 60)%nat ->
  strip s = s ->
  single_spaced false s = true ->
  endswith s (lit ".") = true ->
  endswith s (lit "..") = false ->
  one_sentence (Some s) = s.
Proof.
  intros Hlen Hstrip Hsp Hdot Hdd.
  pose proof (sub_ws_from_fixed false s Hsp) as Hws.
  rewrite one_sentence_keeps; simpl or_empty; rewrite Hstrip; unfold sub_ws;
    rewrite Hws; [|lia].
  rewrite Hdot. cbn [negb].
  destruct (drop_periods_spec s) as (_ & _ & _ & Hfix).
  rewrite (Hfix Hdd). apply firstn_all2. lia.
Qed.

Lemma one_sentence_keeps_well_formed_witness :
  one_sentence (Some (lit "Retired pilot who restores old radios."))
  = lit "Retired pilot who restores old radios.".
Proof.
  apply one_sentence_keeps_well_formed;
    [vm_compute; lia|reflexivity|reflexivity|reflexivity|reflexivity].
Defined.

(** X5. A note whose trimmed, single-spaced text has 60 characters or
    more and does not end with two periods is cut to the first 60
    characters of that text. *)
Theorem one_sentence_cuts_long_notes (note : option pystr) :
  (60 <= length (sub_ws (strip (or_empty note))))%nat ->
  endswith (sub_ws (strip (or_empty note))) (lit "..") = false ->
  one_sentence note = firstn 60 (sub_ws (strip (or_empty note))).
Proof.
  set (n := sub_ws (strip (or_empty note))). intros Hlen Hdd.
  rewrite one_sentence_keeps by (fold n; lia). fold n.
  destruct (drop_periods_spec n) as (_ & _ & _ & Hfix).
  destruct (endswith n (lit ".")) eqn:Ed; cbn [negb].
  - now rewrite (Hfix Hdd).
  - destruct (snoc_cases n) as [H0|(p & c & H0)];
      [rewrite H0 in Hlen; simpl in Hlen; lia|].
    destruct (drop_periods_spec (n ++ lit ".")) as (_ & _ & _ & Hfix').
    rewrite Hfix'.
    + rewrite firstn_app.
      replace (60 - length n)%nat with 0%nat by lia.
      now rewrite firstn_O, app_nil_r.
    + lits. rewrite H0 in *. rewrite endswith_1 in Ed.
      rewrite <- app_assoc. cbn [app]. now rewrite endswith_2, Ed.
Qed.

Lemma one_sentence_cuts_long_notes_witness :
  one_sentence (Some long_note) = firstn 60 (sub_ws (strip long_note)).
Proof.
  apply (one_sentence_cuts_long_notes (Some long_note));
    [vm_compute; lia|reflexivity].
Defined.

(** ** clamp_dob *)

Section DateFacts.

Import PyInt.

Lemma transform_ascii (s : pystr) :
  forallb (fun c => c <? 127) s = true -> transform_decimal_and_space s = s.
Proof.
  induction s as [|c t IH]; simpl; [reflexivity|].
  intros H. apply andb_true_iff in H as [Hc Ht]. rewrite Hc. now rewrite IH.
Qed.

Lemma ascii_digit_range (c : char) : is_ascii_digit c = true <-> 48 <= c <= 57.
Proof.
  unfold is_ascii_digit. rewrite andb_true_iff, !N.leb_le. reflexivity.
Qed.

Lemma ascii_digits_below_127 (s : pystr) :
  forallb is_ascii_digit s = true -> forallb (fun c => c <? 127) s = true.
Proof.
  rewrite !forallb_forall. intros H c Hc. specialize (H c Hc).
  apply ascii_digit_range in H. apply N.ltb_lt. lia.
Qed.

Lemma scan_digits_all (t : pystr) (acc : list N) :
  forallb is_ascii_digit t = true ->
  scan_digits false acc t = Some (rev acc ++ map (fun c => c - 0x30) t, []).
Proof.
  revert acc; induction t as [|c t IH]; intros acc; simpl.
  - intros _. now rewrite app_nil_r.
  - intros H. apply andb_true_iff in H as [Hc Ht]. rewrite Hc.
    rewrite (IH _ Ht). simpl. now rewrite <- app_assoc.
Qed.

(** [int] reads a run of ASCII digits as its decimal value. *)
Lemma int_ascii_digits (c : char) (t : pystr) :
  forallb is_ascii_digit (c :: t) = true ->
  (length (c :: t) <= int_max_str_digits)%nat ->
  int (c :: t) = Some (digits_value (map (fun c => c - 0x30) (c :: t))).
Proof.
  intros Hd Hlen. unfold int.
  rewrite (transform_ascii _ (ascii_digits_below_127 _ Hd)).
  pose proof Hd as Hd'. cbn [forallb] in Hd'.
  apply andb_true_iff in Hd' as [Hc Ht]. pose proof Hc as Hr.
  apply ascii_digit_range in Hr.
  assert (Hcases : c = 48 \/ c = 49 \/ c = 50 \/ c = 51 \/ c = 52 \/ c = 53
                   \/ c = 54 \/ c = 55 \/ c = 56 \/ c = 57) by lia.
  assert (Hfin : Nat.ltb int_max_str_digits
                    (length (map (fun c => c - 0x30) (c :: t))) = false)
    by (apply Nat.ltb_ge; now rewrite length_map).
  repeat (destruct Hcases as [Hcases|Hcases]); subst c;
    cbn [skip_c_space c_isspace N.leb N.eqb N.compare Pos.compare
         Pos.compare_cont Pos.eqb andb orb];
    cbv beta iota zeta;
    rewrite (scan_digits_all _ [] Hd); cbn [rev app map skip_c_space];
    cbn [map] in Hfin; rewrite Hfin; reflexivity.
Qed.

Lemma split_from_dash (cur t : pystr) :
  split_from 0x2D cur (0x2D :: t) = rev cur :: split_from 0x2D [] t.
Proof. reflexivity. Qed.

Lemma split_from_digit (cur t : pystr) (c : char) :
  is_ascii_digit c = true ->
  split_from 0x2D cur (c :: t) = split_from 0x2D (c :: cur) t.
Proof.
  intros H. apply ascii_digit_range in H. cbn [split_from].
  replace (c =? 0x2D) with false; [reflexivity|].
  symmetry. apply N.eqb_neq. lia.
Qed.

(** Splitting gives one piece more than there are separators. *)
Lemma split_from_length (sep : char) (cur s : pystr) :
  length (split_from sep cur s) = S (count_char sep s).
Proof.
  unfold count_char. revert cur; induction s as [|c t IH]; intros cur;
    [reflexivity|].
  cbn [split_from filter]. rewrite (N.eqb_sym sep c).
  destruct (c =? sep); cbn [length]; now rewrite IH.
Qed.

Lemma parse_ymd_pieces (d : pystr) :
  count_char 0x2D d <> 2%nat -> parse_ymd d = None.
Proof.
  intros H. unfold parse_ymd, str_split.
  pose proof (split_from_length 0x2D [] d) as Hl.
  destruct (split_from 0x2D [] d) as [|a [|b [|c [|e l]]]];
    cbn [length] in Hl; try lia; cbn [map];
    repeat match goal with
           | |- context [int ?x] => destruct (int x)
           end; reflexivity.
Qed.

Lemma parse_ymd_digits (y1 y2 y3 y4 m1 m2 d1 d2 : char) :
  forallb is_ascii_digit [y1; y2; y3; y4; m1; m2; d1; d2] = true ->
  parse_ymd [y1; y2; y3; y4; 0x2D; m1; m2; 0x2D; d1; d2]
  = Some ((1000 * digit_val y1 + 100 * digit_val y2
           + 10 * digit_val y3 + digit_val y4)%Z,
          (10 * digit_val m1 + digit_val m2)%Z,
          (10 * digit_val d1 + digit_val d2)%Z).
Proof.
  intros H. cbn [forallb] in H.
  repeat (apply andb_true_iff in H as [?H H]). clear H.
  unfold parse_ymd, str_split.
  rewrite !split_from_digit, split_from_dash, !split_from_digit,
    split_from_dash, !split_from_digit by assumption.
  cbn [split_from rev app map].
  rewrite !int_ascii_digits;
    try (cbn [forallb];
         repeat match goal with
                | H : is_ascii_digit _ = true |- _ => rewrite H; clear H
                end; reflexivity);
    try (cbn [length]; unfold int_max_str_digits; lia).
  unfold digits_value, digit_val. cbn [map fold_left].
  repeat match goal with
         | H : is_ascii_digit _ = true |- _ => apply ascii_digit_range in H
         end.
  do 3 f_equal; lia.
Qed.

Lemma nearest_inside (lo hi v : Z) : (lo <= v <= hi)%Z -> nearest lo hi v = v.
Proof.
  intros H. unfold nearest.
  replace (v <? lo)%Z with false by (symmetry; apply Z.ltb_ge; lia).
  replace (hi <? v)%Z with false by (symmetry; apply Z.ltb_ge; lia).
  reflexivity.
Qed.

Lemma clamp_dob_shape (d : pystr) (g : rng) :
  dob_shape (fst (clamp_dob d g)) = true.
Proof.
  unfold clamp_dob. destruct (parse_ymd d) as [[[y m] day]|].
  - cbn [fst]. rewrite !nearest_min_max by lia.
    pose proof (nearest_range 1920 2024 y). pose proof (nearest_range 1 12 m).
    pose proof (nearest_range 1 28 day). apply dob_shape_render; lia.
  - apply random_dob_shape.
Qed.

Lemma random_dob_draws (g : rng) :
  drawn (snd (random_dob g)) = (drawn g + 3)%nat.
Proof. unfold random_dob, randint. cbn [snd drawn]. lia. Qed.

(** The digits of a number of 1000..9999 written from four digits. *)
Lemma four_digits_back (y1 y2 y3 y4 : char) (y : Z) :
  48 <= y1 <= 57 -> 48 <= y2 <= 57 -> 48 <= y3 <= 57 -> 48 <= y4 <= 57 ->
  y = (1000 * digit_val y1 + 100 * digit_val y2
       + 10 * digit_val y3 + digit_val y4)%Z ->
  [0x30 + Z.abs_N y / 10 / 10 / 10 mod 10; 0x30 + Z.abs_N y / 10 / 10 mod 10;
   0x30 + Z.abs_N y / 10 mod 10; 0x30 + Z.abs_N y mod 10] = [y1; y2; y3; y4].
Proof.
  unfold digit_val. intros H1 H2 H3 H4 ->.
  replace (Z.abs_N _) with (1000 * (y1 - 48) + 100 * (y2 - 48)
                            + 10 * (y3 - 48) + (y4 - 48)) by lia.
  repeat f_equal; divlia.
Qed.

Lemma two_digits_back (m1 m2 : char) (m : Z) :
  48 <= m1 <= 57 -> 48 <= m2 <= 57 ->
  m = (10 * digit_val m1 + digit_val m2)%Z ->
  [0x30 + Z.abs_N m / 10 mod 10; 0x30 + Z.abs_N m mod 10] = [m1; m2].
Proof.
  unfold digit_val. intros H1 H2 ->.
  replace (Z.abs_N _) with (10 * (m1 - 48) + (m2 - 48)) by lia.
  repeat f_equal; divlia.
Qed.

End DateFacts.

(** X6. A date that already has the shape YYYY-MM-DD with ASCII digits
    and the year, month and day in range is returned as it is, and no
    random number is drawn. *)
Theorem clamp_dob_keeps_valid_dates (s : pystr) (g : rng) :
  dob_shape s = true -> clamp_dob s g = (s, g).
Proof.
  unfold dob_shape. destruct (dob_fields s) as [[[y m] day]|] eqn:E;
    [|discriminate].
  intros Hr. unfold dob_fields in E.
  destruct s as [|y1 [|y2 [|y3 [|y4 [|s1 [|m1 [|m2 [|s2 [|d1 [|d2 [|x r]]]]]]]]]]];
    try discriminate E.
  destruct (forallb is_ascii_digit [y1; y2; y3; y4; m1; m2; d1; d2]) eqn:Hd;
    [|discriminate E].
  destruct (s1 =? 0x2D) eqn:E1; [|discriminate E].
  destruct (s2 =? 0x2D) eqn:E2; [|discriminate E].
  apply N.eqb_eq in E1. apply N.eqb_eq in E2. subst s1 s2.
  cbn [andb] in E.
  apply (f_equal (fun o => match o with Some t => t | None => (0, 0, 0)%Z end))
    in E.
  cbv beta iota in E.
  apply pair_equal_spec in E as [E Ed]. apply pair_equal_spec in E as [Ey Em].
  repeat (apply andb_true_iff in Hr as [Hr ?H]).
  repeat match goal with
         | H : (_ <=? _)%Z = true |- _ => apply Z.leb_le in H
         end.
  pose proof (parse_ymd_digits _ _ _ _ _ _ _ _ Hd) as Hp.
  unfold clamp_dob. unfold pystr, char in *. rewrite Hp.
  rewrite Ey, Em, Ed. rewrite !nearest_min_max by lia.
  rewrite !nearest_inside by lia.
  cbn [forallb] in Hd. repeat (apply andb_true_iff in Hd as [?Hc Hd]).
  repeat match goal with
         | H : is_ascii_digit _ = true |- _ => apply ascii_digit_range in H
         end.
  f_equal. unfold render_dob.
  rewrite format_0d_4, !format_0d_2 by lia.
  rewrite (four_digits_back y1 y2 y3 y4 y), (two_digits_back m1 m2 m),
    (two_digits_back d1 d2 day) by (assumption || now symmetry).
  reflexivity.
Qed.

Lemma clamp_dob_keeps_valid_dates_witness :
  clamp_dob (lit "1984-07-15") (gen sample_world)
  = (lit "1984-07-15", gen sample_world).
Proof.
  exact (clamp_dob_keeps_valid_dates (lit "1984-07-15") (gen sample_world)
           eq_refl).
Defined.

(** X7. A text that does not have exactly two dashes is replaced by a
    random date of the fixed shape, for which three numbers are drawn. *)
Theorem clamp_dob_needs_two_dashes (d : pystr) (g : rng) :
  count_char 0x2D d <> 2%nat ->
  clamp_dob d g = random_dob g
  /\ dob_shape (fst (clamp_dob d g)) = true
  /\ drawn (snd (clamp_dob d g)) = (drawn g + 3)%nat.
Proof.
  intros H. assert (E : clamp_dob d g = random_dob g)
    by (unfold clamp_dob; now rewrite (parse_ymd_pieces d H)).
  split; [exact E|]. split; [apply clamp_dob_shape|].
  rewrite E. apply random_dob_draws.
Qed.

Lemma clamp_dob_needs_two_dashes_witness :
  clamp_dob (lit "1984/07/15") (gen sample_world)
  = random_dob (gen sample_world).
Proof.
  apply (clamp_dob_needs_two_dashes (lit "1984/07/15") (gen sample_world)).
  vm_compute. discriminate.
Defined.

(** ** sanitize_zip *)

Lemma filter_all (f : char -> bool) (s : pystr) :
  forallb f s = true -> filter f s = s.
Proof.
  induction s as [|c t IH]; simpl; [reflexivity|].
  intros H. apply andb_true_iff in H as [Hc Ht]. rewrite Hc. now rewrite IH.
Qed.

Lemma sanitize_zip_draws (z : option pystr) (g : rng) :
  drawn (snd (sanitize_zip z g))
  = (if (length (sub_nondigits (or_empty z)) =? 5)%nat
     then drawn g else S (drawn g)).
Proof.
  unfold sanitize_zip.
  destruct (length (sub_nondigits (or_empty z)) =? 5)%nat; reflexivity.
Qed.

(** X8. The ZIP code returned is always five decimal digits.  When the
    input holds exactly five digits they are returned in their order and
    no random number is drawn; otherwise the result is five ASCII digits
    and one random number is drawn. *)
Theorem sanitize_zip_five_digits (z : option pystr) (g : rng) :
  is_decimal5 (fst (sanitize_zip z g)) = true
  /\ (length (sub_nondigits (or_empty z)) = 5%nat ->
      sanitize_zip z g = (sub_nondigits (or_empty z), g))
  /\ (length (sub_nondigits (or_empty z)) <> 5%nat ->
      is_zip5 (fst (sanitize_zip z g)) = true
      /\ drawn (snd (sanitize_zip z g)) = S (drawn g)).
Proof.
  destruct (sanitize_zip_decimal z g) as (H1 & H2 & H3).
  split; [exact H1|]. split; [exact H2|]. intros Hne.
  split; [exact (H3 Hne)|]. rewrite sanitize_zip_draws.
  apply Nat.eqb_neq in Hne. now rewrite Hne.
Qed.

Lemma sanitize_zip_five_digits_witness :
  sanitize_zip (Some (lit "ZIP: 0-21 34")) (gen sample_world)
  = (lit "02134", gen sample_world).
Proof.
  exact (proj1 (proj2 (sanitize_zip_five_digits (Some (lit "ZIP: 0-21 34"))
                         (gen sample_world))) eq_refl).
Defined.

(** X9. For an input of ASCII characters only, the ZIP code returned is
    five ASCII digits. *)
Theorem sanitize_zip_ascii_input (z : option pystr) (g : rng) :
  is_ascii (or_empty z) = true -> is_zip5 (fst (sanitize_zip z g)) = true.
Proof. exact (sanitize_zip_ascii z g). Qed.

Lemma sanitize_zip_ascii_input_witness :
  is_zip5 (fst (sanitize_zip (Some (lit "9021")) (gen sample_world))) = true.
Proof.
  exact (sanitize_zip_ascii_input (Some (lit "9021")) (gen sample_world)
           eq_refl).
Defined.

(** X10. [sanitize_zip] leaves its own results alone: applied to a ZIP
    code it returned, it returns the same code and draws no random
    number. *)
Theorem sanitize_zip_idempotent (z : option pystr) (g g' : rng) :
  sanitize_zip (Some (fst (sanitize_zip z g))) g'
  = (fst (sanitize_zip z g), g').
Proof.
  destruct (sanitize_zip_decimal z g) as (H & _).
  unfold is_decimal5 in H. apply andb_true_iff in H as [Hl Hd].
  apply Nat.eqb_eq in Hl.
  set (r := fst (sanitize_zip z g)) in *.
  unfold sanitize_zip at 1. cbn [or_empty]. unfold sub_nondigits.
  rewrite (filter_all isdecimal r Hd), Hl. reflexivity.
Qed.

(** ** parse_json_strict *)

Section ExtractorMore.

Variable J : json_codec.

(** What the extractor does with the candidate text. *)
Let decode (arr : pystr) : result json :=
  match loads J arr with
  | Some v => Ok v
  | None => Raise DecodeFailure
  end.

(** With a positive depth, the loop stops at the first bracket that
    brings the depth to zero and decodes the text up to it. *)
Lemma scan_brackets_stops
  (text : pystr) (start i : nat) (rest : pystr) (depth : Z) (n : nat) :
  (1 <= depth)%Z -> (0 < n <= length rest)%nat ->
  (depth + depth_of (firstn n rest))%Z = 0%Z ->
  (forall j, (0 < j < n)%nat -> (depth + depth_of (firstn j rest))%Z <> 0%Z) ->
  scan_brackets J text start i rest depth = decode (slice text start (i + n)).
Proof.
  revert i depth n; induction rest as [|ch rest IH]; intros i depth n Hd Hn Hz Hmin.
  - simpl in Hn. lia.
  - destruct n as [|n]; [lia|]. rewrite depth_of_cons_firstn in Hz.
    cbn [scan_brackets]. destruct n as [|n].
    + (* the depth comes back at this character *)
      cbn [firstn depth_of] in Hz.
      destruct (ch =? 0x5B); [lia|]. destruct (ch =? 0x5D); [|lia].
      replace (depth - 1 =? 0)%Z with true by (symmetry; apply Z.eqb_eq; lia).
      reflexivity.
    + assert (H1 : (depth + depth_of (firstn 1 (ch :: rest)))%Z <> 0%Z)
        by (apply Hmin; lia).
      rewrite depth_of_cons_firstn in H1. cbn [firstn depth_of] in H1.
      assert (Hnext : forall delta : Z,
        (delta = if (ch =? 0x5B)%N then 1 else if (ch =? 0x5D)%N then -1 else 0)%Z ->
        scan_brackets J text start (S i) rest (depth + delta)
        = decode (slice text start (i + S (S n)))).
      { intros delta Hdelta.
        assert (Hr : (delta = 1 \/ delta = -1 \/ delta = 0)%Z)
          by (rewrite Hdelta; destruct (ch =? 0x5B); destruct (ch =? 0x5D); lia).
        rewrite <- Hdelta in Hz, H1.
        replace (i + S (S n))%nat with (S i + S n)%nat by lia.
        apply IH; [lia|simpl in Hn; lia|lia|].
        intros j Hj. specialize (Hmin (S j)).
        rewrite depth_of_cons_firstn, <- Hdelta in Hmin.
        rewrite <- Z.add_assoc. apply Hmin. lia. }
      destruct (ch =? 0x5B) eqn:Eo; [now apply Hnext|].
      destruct (ch =? 0x5D) eqn:Ec.
      * replace (depth - 1 =? 0)%Z with false
          by (symmetry; apply Z.eqb_neq; lia).
        now apply (Hnext (-1)%Z).
      * rewrite <- (Z.add_0_r depth) at 1. now apply Hnext.
Qed.

Lemma match_here_app (s post : pystr) :
  match_here s = true -> match_here (s ++ post) = true.
Proof.
  intros H. apply match_here_spec in H as (ws & rest & -> & Hws).
  apply match_here_spec. exists ws, (rest ++ post). split; [|exact Hws].
  cbn [app]. now rewrite <- app_assoc.
Qed.

Lemma search_from_space (i : nat) (ws : pystr) :
  forallb isspace ws = true -> search_from i ws = None.
Proof.
  revert i; induction ws as [|c t IH]; intros i; [reflexivity|].
  cbn [forallb search_from match_here]. intros H.
  apply andb_true_iff in H as [Hc Ht].
  replace (c =? 0x5B) with false; [now apply IH|].
  symmetry. apply N.eqb_neq. intros ->. discriminate Hc.
Qed.

(** A match that needs the appended text starts a run of whitespace
    that reaches the end of the text. *)
Lemma match_here_late (c : char) (t post : pystr) :
  match_here (c :: t) = false -> match_here ((c :: t) ++ post) = true ->
  forallb isspace t = true.
Proof.
  cbn [app match_here]. intros Hf Ht.
  apply andb_true_iff in Ht as [Hc Ht]. rewrite Hc in Hf. cbn [andb] in Hf.
  clear Hc. induction t as [|d t IH]; [reflexivity|].
  cbn [app lstrip forallb] in *. destruct (isspace d); [now apply IH|].
  rewrite Ht in Hf. discriminate.
Qed.

(** The first match is not changed by text added at the end. *)
Lemma search_from_app (i : nat) (s post : pystr) (j : nat) :
  search_from i s = Some j -> search_from i (s ++ post) = Some j.
Proof.
  revert i; induction s as [|c t IH]; intros i; [discriminate|].
  cbn [search_from]. destruct (match_here (c :: t)) eqn:E.
  - intros [= <-]. change ((c :: t) ++ post) with (c :: t ++ post).
    cbn [search_from]. change (c :: t ++ post) with ((c :: t) ++ post).
    now rewrite (match_here_app _ post E).
  - intros H. change ((c :: t) ++ post) with (c :: t ++ post).
    cbn [search_from]. change (c :: t ++ post) with ((c :: t) ++ post).
    destruct (match_here ((c :: t) ++ post)) eqn:E'.
    + pose proof (match_here_late c t post E E') as Hws.
      rewrite (search_from_space (S i) t Hws) in H. discriminate.
    + now apply IH.
Qed.

Lemma slice_app (text post : pystr) (a b : nat) :
  (b <= length text)%nat -> slice (text ++ post) a b = slice text a b.
Proof.
  intros H. unfold slice. rewrite skipn_app, firstn_app.
  replace (b - a - length (skipn a text))%nat with 0%nat
    by (rewrite length_skipn; lia).
  now rewrite firstn_O, app_nil_r.
Qed.

(** A scan that ends before the end of the text does not see what
    follows the text. *)
Lemma scan_brackets_app
  (text post : pystr) (start i : nat) (rest : pystr) (depth : Z) :
  (i + length rest = length text)%nat ->
  scan_brackets J text start i rest depth <> Raise UnbalancedArray ->
  scan_brackets J (text ++ post) start i (rest ++ post) depth
  = scan_brackets J text start i rest depth.
Proof.
  revert i depth; induction rest as [|ch rest IH]; intros i depth Hi Hne.
  - now contradiction Hne.
  - cbn [app scan_brackets] in *. cbn [length] in Hi.
    destruct (ch =? 0x5B); [apply IH; [lia|exact Hne]|].
    destruct (ch =? 0x5D); [|apply IH; [lia|exact Hne]].
    destruct (depth - 1 =? 0)%Z; [|apply IH; [lia|exact Hne]].
    rewrite slice_app by lia. reflexivity.
Qed.

Lemma slice_offset (pre text : pystr) (a b : nat) :
  slice (pre ++ text) (length pre + a) (length pre + b) = slice text a b.
Proof.
  unfold slice. rewrite skipn_app, skipn_all2 by lia.
  replace (length pre + a - length pre)%nat with a by lia.
  replace (length pre + b - (length pre + a))%nat with (b - a)%nat by lia.
  reflexivity.
Qed.

(** The scan depends on the text before its start through the indices
    only. *)
Lemma scan_brackets_offset
  (pre text : pystr) (start i : nat) (rest : pystr) (depth : Z) :
  scan_brackets J (pre ++ text) (length pre + start) (length pre + i) rest depth
  = scan_brackets J text start i rest depth.
Proof.
  revert i depth; induction rest as [|ch rest IH]; intros i depth;
    [reflexivity|].
  cbn [scan_brackets].
  replace (S (length pre + i)) with (length pre + S i)%nat by lia.
  rewrite !IH.
  replace (length pre + i + 1)%nat with (length pre + (i + 1))%nat by lia.
  now rewrite slice_offset.
Qed.

Lemma search_from_shift (k i : nat) (s : pystr) :
  search_from (k + i) s = option_map (Nat.add k) (search_from i s).
Proof.
  revert i; induction s as [|c t IH]; intros i; [reflexivity|].
  cbn [search_from]. destruct (match_here (c :: t)); [reflexivity|].
  replace (S (k + i)) with (k + S i)%nat by lia. apply IH.
Qed.

Lemma search_from_skip (pre text : pystr) (i : nat) :
  forallb (fun c => negb (c =? 0x5B)) pre = true ->
  search_from i (pre ++ text) = search_from (length pre + i) text.
Proof.
  revert i; induction pre as [|c pre IH]; intros i; [reflexivity|].
  cbn [forallb app search_from match_here length]. intros H.
  apply andb_true_iff in H as [Hc Hp]. apply negb_true_iff in Hc.
  rewrite Hc. cbn [andb]. rewrite (IH (S i) Hp). f_equal. lia.
Qed.

End ExtractorMore.

(** X11. When the bracket depth, counted from the first array-open
    match, first returns to zero after [n] characters, the extractor
    decodes exactly those [n] characters: the text before the match and
    after the closing bracket plays no part. *)
Theorem parse_json_strict_candidate
  (J : json_codec) (text : pystr) (start n : nat) :
  search_array_open text = Some start ->
  (0 < n <= length text - start)%nat ->
  depth_of (firstn n (skipn start text)) = 0%Z ->
  (forall j, (0 < j < n)%nat -> depth_of (firstn j (skipn start text)) <> 0%Z) ->
  parse_json_strict J text
  = match loads J (firstn n (skipn start text)) with
    | Some v => Ok v
    | None => Raise DecodeFailure
    end.
Proof.
  intros Hs Hn Hz Hmin. unfold parse_json_strict. rewrite Hs.
  unfold search_array_open in Hs.
  destruct (search_from_some 0 text start Hs) as (k & -> & Hk & Hm & _).
  cbn [Nat.add] in *.
  destruct (match_here_head _ Hm) as [t Ht]. rewrite Ht in *.
  assert (Hlen : (length text - k = S (length t))%nat)
    by (rewrite <- length_skipn, Ht; reflexivity).
  destruct n as [|n]; [lia|]. rewrite depth_of_cons_firstn in Hz.
  rewrite N.eqb_refl in Hz.
  destruct n as [|n]; [cbn [firstn depth_of] in Hz; lia|].
  cbn [scan_brackets]. rewrite N.eqb_refl.
  rewrite (scan_brackets_stops J text k (S k) t (0 + 1)%Z (S n)).
  - unfold slice. replace (S k + S n - k)%nat with (S (S n)) by lia.
    now rewrite Ht.
  - lia.
  - unfold pystr, char in *. lia.
  - lia.
  - intros j Hj. specialize (Hmin (S j)).
    rewrite depth_of_cons_firstn, N.eqb_refl in Hmin. apply Hmin. lia.
Qed.

Lemma parse_json_strict_candidate_witness :
  parse_json_strict sample_codec (lit "Here you go: [{}] enjoy")
  = Ok (JArr [JObj []]).
Proof.
  apply (parse_json_strict_candidate sample_codec
           (lit "Here you go: [{}] enjoy") 13 4 eq_refl).
  - simpl. lia.
  - reflexivity.
  - intros j Hj.
    do 4 (destruct j as [|j]; [simpl in *; lia|]). lia.
Defined.

(** X12. Text after the closing bracket is never looked at: when the
    extractor finds a balanced array in a text (it returns a value or
    the decoder fails), it gives the same result with anything
    appended. *)
Theorem parse_json_strict_ignores_tail (J : json_codec) (text post : pystr) :
  parse_json_strict J text <> Raise NoArrayFound ->
  parse_json_strict J text <> Raise UnbalancedArray ->
  parse_json_strict J (text ++ post) = parse_json_strict J text.
Proof.
  unfold parse_json_strict, search_array_open.
  destruct (search_from 0 text) as [start|] eqn:Hs; [|now intros H].
  intros _ Hne. rewrite (search_from_app 0 text post start Hs).
  destruct (search_from_some 0 text start Hs) as (k & -> & Hk & _).
  cbn [Nat.add] in *. rewrite skipn_app.
  replace (k - length text)%nat with 0%nat by lia. cbn [skipn].
  apply scan_brackets_app; [|exact Hne].
  rewrite length_skipn. lia.
Qed.

Lemma parse_json_strict_ignores_tail_witness :
  parse_json_strict sample_codec (lit "[{}]" ++ lit "] and [more")
  = parse_json_strict sample_codec (lit "[{}]").
Proof.
  apply parse_json_strict_ignores_tail; vm_compute; discriminate.
Defined.

(** X13. Text before the array is skipped as long as it holds no
    array-open bracket: the result is the one for the text without
    it. *)
Theorem parse_json_strict_ignores_head (J : json_codec) (pre text : pystr) :
  forallb (fun c => negb (c =? 0x5B)) pre = true ->
  parse_json_strict J (pre ++ text) = parse_json_strict J text.
Proof.
  intros Hpre. unfold parse_json_strict, search_array_open.
  rewrite (search_from_skip pre text 0 Hpre), search_from_shift.
  destruct (search_from 0 text) as [start|]; [|reflexivity].
  cbn [option_map]. rewrite skipn_app, skipn_all2 by lia.
  replace (length pre + start - length pre)%nat with start by lia.
  cbn [app]. apply scan_brackets_offset.
Qed.

Lemma parse_json_strict_ignores_head_witness :
  parse_json_strict sample_codec (lit "Sure! {here}: " ++ lit "[{}]")
  = parse_json_strict sample_codec (lit "[{}]").
Proof.
  exact (parse_json_strict_ignores_head sample_codec (lit "Sure! {here}: ")
           (lit "[{}]") eq_refl).
Defined.

(** ** The records of a batch *)

Section RecordFacts.

Variable U : case_tables.

Lemma bind_ok {A B : Type} (c : M A) (k : A -> M B) (w : world)
  (b : B) (w' : world) :
  bind c k w = (Ok b, w') ->
  exists a w1, c w = (Ok a, w1) /\ k a w1 = (Ok b, w').
Proof.
  unfold bind. destruct (c w) as [[a|e] w1]; [|discriminate].
  intros H. now exists a, w1.
Qed.

Lemma lift_ok {A : Type} (x : result A) (w : world) (a : A) (w1 : world) :
  lift x w = (Ok a, w1) -> x = Ok a /\ w1 = w.
Proof. unfold lift. intros [= -> ->]. now split. Qed.

Lemma with_rng_ok {A : Type} (f : rng -> A * rng) (w : world) (a : A)
  (w1 : world) :
  with_rng f w = (Ok a, w1) -> a = fst (f (gen w)).
Proof.
  unfold with_rng. destruct (f (gen w)) as [x g]. now intros [= <- <-].
Qed.

Lemma get_or_empty_ok (p : json) (key : string) (v : json) :
  get_or_empty p key = Ok v ->
  exists members, p = JObj members /\ v = field members key.
Proof.
  destruct p; try discriminate. intros [= <-]. now eexists.
Qed.

(** A name field that is read without error is the cleaned name of the
    string found under the key. *)
Lemma name_field_ok (p : json) (key : string) (w : world) (a : pystr)
  (w1 : world) :
  name_field U p key w = (Ok a, w1) ->
  exists members s,
    p = JObj members /\ field members key = JStr s /\ a = clean_name U s.
Proof.
  unfold name_field. intros H. apply bind_ok in H as (v & w0 & Hv & H).
  apply lift_ok in Hv as [Hv ->].
  apply get_or_empty_ok in Hv as (members & -> & ->).
  destruct (field members key) as [ | | | |s| | ] eqn:E;
    try discriminate H.
  injection H as <- _. now exists members, s.
Qed.

Lemma str_or_bounds (x default : pystr) :
  (length x <= 12)%nat -> (1 <= length default <= 12)%nat ->
  (1 <= length (str_or x default) <= 12)%nat.
Proof. destruct x; simpl; lia. Qed.

Lemma field_text (members : list (pystr * json)) (key : string) :
  text_or_falsy (dict_get members (lit key)) = true ->
  exists s, field members key = JStr s.
Proof.
  unfold field, text_or_falsy.
  destruct (dict_get members (lit key)) as [ | | | |s| | ] eqn:E;
    try (intros H; apply negb_true_iff in H; rewrite H; now eexists).
  intros _. destruct (truthy (JStr s)); now eexists.
Qed.

Lemma field_blank (members : list (pystr * json)) (key : string) :
  blank (dict_get members (lit key)) = true ->
  exists s, field members key = JStr s /\ forallb isspace s = true.
Proof.
  unfold field, blank.
  destruct (dict_get members (lit key)) as [ | | | |s| | ] eqn:E;
    try (intros H; apply negb_true_iff in H; rewrite H; now exists []).
  intros H. destruct (truthy (JStr s)); [now exists s|now exists []].
Qed.

Lemma clean_name_blank (s : pystr) :
  forallb isspace s = true -> clean_name U s = [].
Proof.
  intros H. unfold clean_name. now rewrite (strip_all_space s H).
Qed.

(** What a record is made of when the body of the loop succeeds. *)
Lemma clean_person_inv (p : json) (w : world) (r : json) (w' : world) :
  clean_person U p w = (Ok r, w') ->
  exists members s1 s2 dob s4 g s5,
    p = JObj members
    /\ field members "firstName" = JStr s1
    /\ field members "lastName" = JStr s2
    /\ field members "zipCode" = JStr s4
    /\ field members "notes" = JStr s5
    /\ dob_shape dob = true
    /\ r = JObj [ (lit "firstName", JStr (str_or (clean_name U s1) (lit "Alex")));
                  (lit "lastName", JStr (str_or (clean_name U s2) (lit "Rivera")));
                  (lit "dateOfBirth", JStr dob);
                  (lit "zipCode", JStr (fst (sanitize_zip (Some s4) g)));
                  (lit "notes", JStr (one_sentence (Some s5))) ].
Proof.
  unfold clean_person. intros H.
  apply bind_ok in H as (first & w1 & Hf & H).
  apply bind_ok in H as (last & w2 & Hl & H).
  apply bind_ok in H as (d & w3 & Hd & H).
  apply bind_ok in H as (dob & w4 & Hdob & H).
  apply bind_ok in H as (z & w5 & Hz & H).
  apply bind_ok in H as (zipc & w6 & Hzip & H).
  apply bind_ok in H as (n & w7 & Hn & H).
  apply bind_ok in H as (notes & w8 & Hnotes & H).
  apply name_field_ok in Hf as (members & s1 & -> & Hf1 & ->).
  apply name_field_ok in Hl as (m2 & s2 & Hm2 & Hf2 & ->).
  injection Hm2 as <-.
  apply lift_ok in Hz as [Hz ->]. apply lift_ok in Hn as [Hn ->].
  apply get_or_empty_ok in Hz as (m4 & Hm4 & ->). injection Hm4 as <-.
  apply get_or_empty_ok in Hn as (m5 & Hm5 & ->). injection Hm5 as <-.
  apply with_rng_ok in Hdob.
  destruct (field members "zipCode") as [ | | | |s4| | ] eqn:E4;
    try discriminate Hzip.
  apply with_rng_ok in Hzip.
  destruct (field members "notes") as [ | | | |s5| | ] eqn:E5;
    try discriminate Hnotes.
  injection Hnotes as <- _. injection H as <- _.
  exists members, s1, s2, dob, s4, (gen w4), s5.
  repeat (split; [first [reflexivity|assumption]|]).
  split; [|now rewrite Hzip].
  rewrite Hdob. destruct d; first [apply clamp_dob_shape|apply random_dob_shape].
Qed.

Lemma clean_person_record (p : json) (w : world) (r : json) (w' : world) :
  clean_person U p w = (Ok r, w') -> cleaned_record_ok r.
Proof.
  intros H.
  apply clean_person_inv in H
    as (members & s1 & s2 & dob & s4 & g & s5 & _ & _ & _ & _ & _ & Hdob & ->).
  exists (str_or (clean_name U s1) (lit "Alex")),
    (str_or (clean_name U s2) (lit "Rivera")), dob,
    (fst (sanitize_zip (Some s4) g)), (one_sentence (Some s5)).
  split; [reflexivity|].
  split; [apply str_or_bounds; [apply clean_name_length|simpl; lia]|].
  split; [apply str_or_bounds; [apply clean_name_length|simpl; lia]|].
  split; [exact Hdob|].
  split; [apply sanitize_zip_decimal|].
  split; [|apply one_sentence_spaced].
  destruct (one_sentence_head (Some s5)) as (c & t & E & _).
  pose proof (one_sentence_length (Some s5)). rewrite E in *. simpl in *. lia.
Qed.

Lemma clean_person_non_object (p : json) (w : world) :
  is_object p = false -> clean_person U p w = (Raise AttributeError, w).
Proof. destruct p; try reflexivity. discriminate. Qed.

Lemma clean_loop_non_object (items cleaned0 : list json) (w : world) :
  Exists (fun p => is_object p = false) items ->
  exists e w', clean_loop U items cleaned0 w = (Raise e, w').
Proof.
  intros H. revert cleaned0 w.
  induction H as [p rest Hp|p rest _ IH]; intros cleaned0 w;
    cbn [clean_loop]; unfold bind at 1.
  - rewrite (clean_person_non_object p w Hp). eauto.
  - destruct (clean_person U p w) as [[c|e] w1]; [apply IH|eauto].
Qed.

End RecordFacts.

(** X14. When every field read as text (the two names, the ZIP code and
    the note) is a string, is missing or is falsy, the body of the loop
    does not raise: it produces a record, whatever the date field
    holds. *)
Theorem clean_person_total_on_text
  (U : case_tables) (members : list (pystr * json)) (w : world) :
  text_or_falsy (dict_get members (lit "firstName")) = true ->
  text_or_falsy (dict_get members (lit "lastName")) = true ->
  text_or_falsy (dict_get members (lit "zipCode")) = true ->
  text_or_falsy (dict_get members (lit "notes")) = true ->
  exists r w', clean_person U (JObj members) w = (Ok r, w')
               /\ cleaned_record_ok r.
Proof.
  intros H1 H2 H4 H5.
  apply field_text in H1 as [s1 E1]. apply field_text in H2 as [s2 E2].
  apply field_text in H4 as [s4 E4]. apply field_text in H5 as [s5 E5].
  unfold field in *.
  assert (H : exists r w', clean_person U (JObj members) w = (Ok r, w')).
  { unfold clean_person, name_field, bind, lift, get_or_empty, with_rng, ret.
    rewrite E1, E2.
    match goal with
    | |- context [let '(a, g) := ?f (gen w) in _] => destruct (f (gen w))
    end.
    rewrite E4. cbn [gen set_gen].
    match goal with
    | |- context [sanitize_zip ?a ?b] => destruct (sanitize_zip a b)
    end.
    rewrite E5. eauto. }
  destruct H as (r & w' & H). exists r, w'. split; [exact H|].
  exact (clean_person_record U _ _ _ _ H).
Qed.

Lemma clean_person_total_on_text_witness :
  exists r w',
    clean_person basic_latin
      (JObj [(lit "firstName", JStr (lit "ada")); (lit "zipCode", JNull);
             (lit "dateOfBirth", JInt 1984); (lit "notes", JBool false)])
      sample_world = (Ok r, w')
    /\ cleaned_record_ok r.
Proof.
  apply clean_person_total_on_text; reflexivity.
Defined.

(** X15. A ZIP code that is a truthy value other than a string (a
    non-zero number, for instance) makes the body of the loop raise a
    type error, when the two names are readable. *)
Theorem clean_person_zip_not_text
  (U : case_tables) (members : list (pystr * json)) (w : world) :
  text_or_falsy (dict_get members (lit "firstName")) = true ->
  text_or_falsy (dict_get members (lit "lastName")) = true ->
  text_or_falsy (dict_get members (lit "zipCode")) = false ->
  exists w', clean_person U (JObj members) w = (Raise TypeError, w').
Proof.
  intros H1 H2 H4.
  apply field_text in H1 as [s1 E1]. apply field_text in H2 as [s2 E2].
  unfold field in *.
  unfold clean_person, name_field, bind, lift, get_or_empty, with_rng, ret.
  rewrite E1, E2.
  match goal with
  | |- context [let '(a, g) := ?f (gen w) in _] => destruct (f (gen w))
  end.
  unfold text_or_falsy in H4.
  destruct (dict_get members (lit "zipCode")); try discriminate H4;
    apply negb_false_iff in H4; rewrite H4; unfold raise; eauto.
Qed.

Lemma clean_person_zip_not_text_witness :
  exists w',
    clean_person basic_latin (JObj [(lit "zipCode", JInt 90210)]) sample_world
    = (Raise TypeError, w').
Proof.
  apply clean_person_zip_not_text; reflexivity.
Defined.

(** X16. A name that is missing, falsy or made of whitespace only is
    replaced by the placeholder: Alex for the first name, Rivera for the
    last name. *)
Theorem clean_person_default_names
  (U : case_tables) (members : list (pystr * json)) (w : world)
  (r : json) (w' : world) :
  clean_person U (JObj members) w = (Ok r, w') ->
  exists fields,
    r = JObj fields
    /\ (blank (dict_get members (lit "firstName")) = true ->
        dict_get fields (lit "firstName") = JStr (lit "Alex"))
    /\ (blank (dict_get members (lit "lastName")) = true ->
        dict_get fields (lit "lastName") = JStr (lit "Rivera")).
Proof.
  intros H.
  apply clean_person_inv in H
    as (m & s1 & s2 & dob & s4 & g & s5 & Hm & E1 & E2 & _ & _ & _ & ->).
  injection Hm as <-. eexists. split; [reflexivity|]. split; intros Hb.
  - apply field_blank in Hb as (s & Es & Hs). rewrite E1 in Es.
    injection Es as ->. now rewrite (clean_name_blank U s Hs).
  - apply field_blank in Hb as (s & Es & Hs). rewrite E2 in Es.
    injection Es as ->. now rewrite (clean_name_blank U s Hs).
Qed.

Lemma clean_person_default_names_witness :
  dict_get
    (match fst (clean_person basic_latin
                  (JObj [(lit "firstName", JStr (lit "   "))]) sample_world)
     with Ok (JObj fields) => fields | _ => [] end)
    (lit "firstName")
  = JStr (lit "Alex").
Proof.
  destruct (clean_person_default_names basic_latin
              [(lit "firstName", JStr (lit "   "))] sample_world
              (match fst (clean_person basic_latin
                            (JObj [(lit "firstName", JStr (lit "   "))])
                            sample_world)
               with Ok r => r | _ => JNull end)
              (snd (clean_person basic_latin
                      (JObj [(lit "firstName", JStr (lit "   "))])
                      sample_world))
              eq_refl) as (fields & _ & _).
  reflexivity.
Defined.

(** ** Batches *)

Section BatchFacts.

Variable U : case_tables.
Variable J : json_codec.

Lemma clean_loop_records (items : list json) (w : world)
  (cleaned : list json) (w1 : world) :
  clean_loop U items [] w = (Ok cleaned, w1) ->
  same_store w w1 /\ length cleaned = length items
  /\ Forall cleaned_record_ok cleaned.
Proof.
  intros E. destruct (clean_loop_spec U _ _ _ _ _ E) as (Hs & Hres).
  destruct (Hres cleaned eq_refl) as (c & -> & Hall). cbn [app].
  split; [exact Hs|]. split; [symmetry; eapply Forall2_length, Hall|].
  clear E Hres. induction Hall as [|p r items c (w1' & w2' & Hp) _ IH];
    constructor; [exact (clean_person_record U _ _ _ _ Hp)|exact IH].
Qed.

Lemma load_existing_unreadable (outfile : pystr) (w : world)
  (existing : list json) :
  files w outfile = None
  \/ (exists text, files w outfile = Some text
                   /\ (loads J text = None
                       \/ exists v, loads J text = Some v
                                    /\ is_array v = false)) ->
  load_existing J outfile w = Ok existing -> existing = [].
Proof.
  unfold load_existing. destruct (unreadable w outfile);
    [intros _; discriminate|].
  intros [->|(text & -> & Hl)]; [now intros [= <-]|].
  destruct Hl as [->|(v & -> & Hv)].
  - destruct (uncaught J text); [discriminate|now intros [= <-]].
  - destruct v; first [discriminate Hv|now intros [= <-]].
Qed.

(** What every batch does, however it ends: one request, no change to
    the other files, and one line printed exactly when it succeeds. *)
Lemma generate_people_step (count : Z) (outfile : pystr) (w : world)
  (r : result unit) (w' : world) :
  generate_people U J count outfile w = (r, w') ->
  (forall p, str_eqb p outfile = false -> files w' p = files w p)
  /\ requests w' = S (requests w)
  /\ replies w' = replies w
  /\ ((r = Ok tt /\ exists line, stdout w' = stdout w ++ [line])
      \/ (exists e, r = Raise e /\ stdout w' = stdout w)).
Proof.
  intros H. apply generate_people_cases in H as [(e & -> & F & S & Rp & Rq)|H].
  - split; [now rewrite F|]. split; [exact Rq|]. split; [exact Rp|].
    right. now exists e.
  - destruct H as (raw & data & existing & items & cleaned & w1
                   & _ & _ & _ & _ & E & H).
    destruct (clean_loop_spec U _ _ _ _ _ E) as ((F & S & _ & _ & Rp & Rq) & _).
    destruct H as [(f & _ & -> & ->)|(-> & ->)];
      cbn [files stdout requests replies print write_file];
      (split; [intros p ->; now rewrite F|]);
      (split; [exact Rq|]); (split; [exact Rp|]).
    + right. exists WriteFailure. now split.
    + left. split; [reflexivity|]. eexists. now rewrite S.
Qed.

End BatchFacts.

(** X17. Every record that a successful batch puts in front of the
    store has the five keys in the order of the source, names of 1 to 12
    characters, a date of the fixed shape, five decimal digits and a
    single-spaced note of 1 to 60 characters. *)
Theorem generate_people_writes_clean_records
  (U : case_tables) (J : json_codec) (count : Z) (outfile : pystr)
  (w w' : world) :
  generate_people U J count outfile w = (Ok tt, w') ->
  exists cleaned,
    files w' outfile
    = Some (dumps J (JArr (cleaned ++ previous_records J outfile w)))
    /\ Forall cleaned_record_ok cleaned.
Proof.
  intros H. apply generate_people_cases in H as [(e & He & _)|H];
    [discriminate He|].
  destruct H as (raw & data & existing & items & cleaned & w1
                 & _ & _ & El & _ & Hc & [(f & _ & He & _)|(_ & ->)]);
    [discriminate He|].
  exists cleaned. cbn [files print write_file].
  rewrite str_eqb_refl, (previous_records_ok J outfile w existing El).
  split; [reflexivity|].
  now apply (clean_loop_records U items (next_request w) cleaned w1).
Qed.

Lemma generate_people_writes_clean_records_witness :
  exists cleaned,
    files (snd (generate_people basic_latin sample_codec 1 (lit "people.json")
                  sample_world)) (lit "people.json")
    = Some (dumps sample_codec
              (JArr (cleaned ++ previous_records sample_codec
                                  (lit "people.json") sample_world)))
    /\ Forall cleaned_record_ok cleaned.
Proof.
  exact (generate_people_writes_clean_records basic_latin sample_codec 1
           (lit "people.json") sample_world
           (snd (generate_people basic_latin sample_codec 1 (lit "people.json")
                   sample_world)) eq_refl).
Defined.

(** X18. One item of the extracted array that is not an object makes
    the whole batch raise; nothing is written and nothing is printed,
    also when the items before it were cleaned without error. *)
Theorem generate_people_rejects_non_object
  (U : case_tables) (J : json_codec) (count : Z) (outfile : pystr)
  (w : world) (raw : pystr) (items : list json) :
  model w count = Some raw ->
  parse_json_strict J raw = Ok (JArr items) ->
  Exists (fun p => is_object p = false) items ->
  exists e w',
    generate_people U J count outfile w = (Raise e, w')
    /\ files w' = files w /\ stdout w' = stdout w.
Proof.
  intros Hm Hp Hex.
  destruct (generate_people U J count outfile w) as [r w'] eqn:H.
  apply generate_people_cases in H as [(e & -> & F & S & _)|H].
  - now exists e, w'.
  - exfalso.
    destruct H as (raw' & data & existing & items' & cleaned & w1
                   & Hm' & Hp' & _ & Hi & Hc & _).
    rewrite Hm in Hm'. injection Hm' as <-. rewrite Hp in Hp'.
    injection Hp' as <-. cbn [iterate] in Hi. injection Hi as <-.
    destruct (clean_loop_non_object U items [] (next_request w) Hex)
      as (e & w2 & Hl).
    rewrite Hl in Hc. discriminate Hc.
Qed.

Lemma generate_people_rejects_non_object_witness :
  exists e w',
    generate_people basic_latin demo_codec 10 (lit "people.json") mixed_world
    = (Raise e, w')
    /\ files w' = files mixed_world /\ stdout w' = stdout mixed_world.
Proof.
  apply (generate_people_rejects_non_object basic_latin demo_codec 10
           (lit "people.json") mixed_world (lit "[{}, 7]")
           [JObj []; JInt 7] eq_refl eq_refl).
  apply Exists_cons_tl, Exists_cons_hd. reflexivity.
Defined.

(** X19. A store file that is missing, does not decode, or decodes to
    something other than an array counts as empty: a successful batch
    replaces it by the new records alone, one per extracted item, and
    reports their number. *)
Theorem generate_people_replaces_unreadable_store
  (U : case_tables) (J : json_codec) (count : Z) (outfile : pystr)
  (w w' : world) :
  generate_people U J count outfile w = (Ok tt, w') ->
  files w outfile = None
  \/ (exists text, files w outfile = Some text
                   /\ (loads J text = None
                       \/ exists v, loads J text = Some v
                                    /\ is_array v = false)) ->
  exists cleaned,
    files w' outfile = Some (dumps J (JArr cleaned))
    /\ Forall cleaned_record_ok cleaned
    /\ stdout w' = stdout w ++ [wrote_line (length cleaned) outfile].
Proof.
  intros H Hold. apply generate_people_cases in H as [(e & He & _)|H];
    [discriminate He|].
  destruct H as (raw & data & existing & items & cleaned & w1
                 & _ & _ & El & _ & Hc & [(f & _ & He & _)|(_ & ->)]);
    [discriminate He|].
  rewrite (load_existing_unreadable J outfile w existing Hold El), app_nil_r.
  destruct (clean_loop_records U items (next_request w) cleaned w1 Hc)
    as ((_ & S & _) & _ & Hok).
  exists cleaned. cbn [files stdout print write_file].
  rewrite str_eqb_refl, S. now repeat split.
Qed.

Lemma generate_people_replaces_unreadable_store_witness :
  exists cleaned,
    files (snd (generate_people basic_latin sample_codec 1 (lit "people.json")
                  stale_world)) (lit "people.json")
    = Some (dumps sample_codec (JArr cleaned))
    /\ Forall cleaned_record_ok cleaned
    /\ stdout (snd (generate_people basic_latin sample_codec 1
                      (lit "people.json") stale_world))
       = stdout stale_world ++ [wrote_line (length cleaned) (lit "people.json")].
Proof.
  apply (generate_people_replaces_unreadable_store basic_latin sample_codec 1
           (lit "people.json") stale_world _ eq_refl).
  right. exists (lit "<<<<<<< not json"). split; [reflexivity|].
  left. reflexivity.
Defined.

(** X20. Every iteration of the driver sends one request to the model,
    so the batches of a run get its successive answers.  The driver
    never changes a file other than [people.json]; it prints one line
    per batch that succeeds, and the first batch that raises ends it:
    after [n] iterations the output has grown by [n] lines exactly when
    no batch has raised, and the number of requests made is [n] then,
    and one more than the number of lines otherwise. *)
Theorem main_loop_frame
  (U : case_tables) (J : json_codec) (n : nat) (w : world)
  (r : result unit) (w' : world) :
  main_loop U J n w = (r, w') ->
  (forall p, str_eqb p (lit "people.json") = false ->
             files w' p = files w p)
  /\ exists lines,
       stdout w' = stdout w ++ lines
       /\ (length lines <= n)%nat
       /\ (r = Ok tt <-> length lines = n)
       /\ requests w'
          = (requests w + match r with
                          | Ok _ => n
                          | Raise _ => S (length lines)
                          end)%nat.
Proof.
  revert w; induction n as [|n IH]; intros w.
  - intros [= <- <-]. split; [reflexivity|].
    exists []. rewrite app_nil_r. cbn [length]. repeat split; lia.
  - cbn [main_loop]. unfold bind at 1.
    destruct (generate_people U J 10 (lit "people.json") w) as [r1 w1] eqn:E.
    apply generate_people_step in E
      as (F & Rq & _ & [(-> & line & S)|(e & -> & S)]).
    + intros H. destruct (IH _ H) as (Hf & lines & Hout & Hlen & Hiff & Hrq).
      split; [intros p Hp; now rewrite (Hf p Hp), (F p Hp)|].
      exists (line :: lines). rewrite Hout, S, <- app_assoc. cbn [length].
      split; [reflexivity|]. split; [lia|]. split; [rewrite Hiff; lia|].
      rewrite Hrq, Rq. destruct r; lia.
    + intros [= <- <-]. split; [exact F|].
      exists []. rewrite app_nil_r. cbn [length].
      split; [exact S|]. split; [lia|]. split; [split; [discriminate|lia]|].
      lia.
Qed.

Lemma main_loop_frame_witness :
  ((forall p, str_eqb p (lit "people.json") = false ->
              files (snd (main_loop basic_latin roster_codec 4 flaky_world)) p
              = files flaky_world p)
   /\ exists lines,
        stdout (snd (main_loop basic_latin roster_codec 4 flaky_world))
        = stdout flaky_world ++ lines
        /\ (length lines <= 4)%nat
        /\ (fst (main_loop basic_latin roster_codec 4 flaky_world) = Ok tt
            <-> length lines = 4%nat)
        /\ requests (snd (main_loop basic_latin roster_codec 4 flaky_world))
           = (requests flaky_world
              + match fst (main_loop basic_latin roster_codec 4 flaky_world)
                with
                | Ok _ => 4
                | Raise _ => S (length lines)
                end)%nat)
  /\ fst (main_loop basic_latin roster_codec 4 flaky_world)
     = Raise GenerationFailure
  /\ stdout (snd (main_loop basic_latin roster_codec 4 flaky_world))
     = [lit "Wrote 1 people to people.json";
        lit "Wrote 3 people to people.json"]
  /\ requests (snd (main_loop basic_latin roster_codec 4 flaky_world)) = 3%nat
  /\ files (snd (main_loop basic_latin roster_codec 4 flaky_world))
       (lit "people.json")
     = Some (lit "Alan Turing;Grace Hopper;Ada Lovelace;").
Proof.
  split.
  - exact (main_loop_frame basic_latin roster_codec 4 flaky_world
             (fst (main_loop basic_latin roster_codec 4 flaky_world))
             (snd (main_loop basic_latin roster_codec 4 flaky_world))
             (surjective_pairing _)).
  - split; [vm_compute; reflexivity|]. split; [vm_compute; reflexivity|].
    split; vm_compute; reflexivity.
Defined.

Section AccumulationFacts.

Variable U : case_tables.
Variable J : json_codec.

Lemma generate_people_store (count : Z) (outfile : pystr) (w w' : world) :
  generate_people U J count outfile w = (Ok tt, w') ->
  files w' outfile
  = Some (dumps J (JArr (batch_records U J count w
                         ++ previous_records J outfile w)))
  /\ stdout w'
     = stdout w
       ++ [wrote_line (length (batch_records U J count w)
                       + length (previous_records J outfile w)) outfile]
  /\ Forall cleaned_record_ok (batch_records U J count w).
Proof.
  intros H. apply generate_people_cases in H as [(e & He & _)|H];
    [discriminate He|].
  destruct H as (raw & data & existing & items & cleaned & w1
                 & Hm & Hp & El & Hi & Hc & [(f & _ & He & _)|(_ & ->)]);
    [discriminate He|].
  unfold batch_records. rewrite Hm, Hp, Hi, Hc. cbn [fst].
  rewrite (previous_records_ok J outfile w existing El).
  destruct (clean_loop_records U items (next_request w) cleaned w1 Hc)
    as ((_ & S & _) & _ & Hok).
  cbn [files stdout print write_file].
  rewrite str_eqb_refl, S, length_app. now repeat split.
Qed.

End AccumulationFacts.

(** X21. Two batches in a row add up, whatever the model answers to
    each.  When the codec reads the store written by the first batch
    back as the array it was written from, the store after the second
    batch holds the records of the second batch, then those of the
    first, then the contents from before; two lines are printed, and the
    second count is the first plus the size of the second batch. *)
Theorem generate_people_accumulates
  (U : case_tables) (J : json_codec) (count : Z) (outfile : pystr)
  (w w1 w2 : world) :
  generate_people U J count outfile w = (Ok tt, w1) ->
  loads J (dumps J (JArr (batch_records U J count w
                          ++ previous_records J outfile w)))
  = Some (JArr (batch_records U J count w ++ previous_records J outfile w)) ->
  generate_people U J count outfile w1 = (Ok tt, w2) ->
  files w2 outfile
  = Some (dumps J (JArr (batch_records U J count w1
                         ++ batch_records U J count w
                         ++ previous_records J outfile w)))
  /\ stdout w2
     = stdout w
       ++ [wrote_line (length (batch_records U J count w)
                       + length (previous_records J outfile w)) outfile;
           wrote_line (length (batch_records U J count w1)
                       + (length (batch_records U J count w)
                          + length (previous_records J outfile w))) outfile].
Proof.
  intros H1 Hback H2.
  pose proof H2 as H2'.
  apply generate_people_store in H1 as (F1 & S1 & _).
  apply generate_people_store in H2 as (F2 & S2 & _).
  assert (Hold : previous_records J outfile w1
                 = batch_records U J count w ++ previous_records J outfile w).
  { apply generate_people_cases in H2' as [(e & He & _)|H2'];
      [discriminate He|].
    destruct H2' as (_ & _ & existing & _ & _ & _ & _ & _ & El & _).
    rewrite (previous_records_ok J outfile w1 existing El).
    unfold load_existing in El.
    destruct (unreadable w1 outfile); [discriminate El|].
    rewrite F1, Hback in El. now injection El. }
  rewrite Hold in F2, S2. split; [exact F2|].
  rewrite S2, S1, <- app_assoc, length_app. reflexivity.
Qed.

Lemma generate_people_accumulates_witness :
  files (snd (main_loop basic_latin roster_codec 2 fresh_world))
    (lit "people.json")
  = Some (lit "Alan Turing;Grace Hopper;Ada Lovelace;")
  /\ stdout (snd (main_loop basic_latin roster_codec 2 fresh_world))
     = [lit "Wrote 1 people to people.json";
        lit "Wrote 3 people to people.json"].
Proof.
  assert (H1 : generate_people basic_latin roster_codec 10 (lit "people.json")
                 fresh_world
               = (Ok tt, snd (generate_people basic_latin roster_codec 10
                                (lit "people.json") fresh_world)))
    by (vm_compute; reflexivity).
  assert (H2 : generate_people basic_latin roster_codec 10 (lit "people.json")
                 (snd (generate_people basic_latin roster_codec 10
                         (lit "people.json") fresh_world))
               = (Ok tt, snd (main_loop basic_latin roster_codec 2 fresh_world)))
    by (vm_compute; reflexivity).
  assert (Hback : loads roster_codec
                    (dumps roster_codec
                       (JArr (batch_records basic_latin roster_codec 10
                                fresh_world
                              ++ previous_records roster_codec
                                   (lit "people.json") fresh_world)))
                  = Some (JArr (batch_records basic_latin roster_codec 10
                                  fresh_world
                                ++ previous_records roster_codec
                                     (lit "people.json") fresh_world)))
    by (vm_compute; reflexivity).
  destruct (generate_people_accumulates basic_latin roster_codec 10
              (lit "people.json") fresh_world _ _ H1 Hback H2) as [F S].
  split; [rewrite F|rewrite S]; vm_compute; reflexivity.
Defined.
